(** * argparse_extd: configuration merge, exclusion registry and
      multi-format persistence of [ArgumentParserExtd]

    A shallow embedding of [src/argparse_extd/argparse_extd.py].

    Python values are an inductive type, dictionaries with string keys
    are [gmap string pyval], exceptions are the [Raise] side of [result],
    and the methods that mutate the parser object or the file system are
    computations in a state-and-exception monad whose state survives a
    raise, as a Python object's attributes do.

    The libraries the module calls ([json], [yaml], [toml],
    [configparser], [repr]/[str]) are an interface, [Libs]; general
    statements quantify over it and state the library facts they use as
    hypotheses, and [ref_libs] is a reference implementation on which
    concrete runs are evaluated.  [argparse] itself is modelled after
    tokenisation: a command line is a list of option occurrences.

    A dictionary is a finite map, equal to another when it has the same
    keys with the same values, as [==] on Python dicts; the order in
    which its items are visited is that of [map_to_list], which matters
    nowhere but for INI option names that differ in case only.  Strings
    are ASCII.  Floating-point values are not modelled. *)

From Stdlib Require Import ZArith Ascii String.
From stdpp Require Import gmap strings list fin_maps pretty.

Set Warnings "-register-all,-clear-no-such-hyp".
Local Open Scope Z_scope.

(** ** Python values *)

Inductive pyval :=
  | PNone
  | PBool (b : bool)
  | PInt (z : Z)
  | PStr (s : string)
  | PList (l : list pyval)
  | PTuple (l : list pyval)
  | PSet (l : list pyval)            (* elements in iteration order *)
  | PDict (d : gmap string pyval)
  | PObj (cls : string).             (* any other object, by class name *)

(** [isinstance(x, str) and x] *)
Definition nonempty_str (v : pyval) : option string :=
  match v with
  | PStr s => if decide (s = "") then None else Some s
  | _ => None
  end.

(** Truth value of an object, as [if x:] tests it. *)
Definition truthy (v : pyval) : bool :=
  match v with
  | PNone => false
  | PBool b => b
  | PInt z => negb (z =? 0)
  | PStr s => negb (bool_decide (s = ""))
  | PList l | PTuple l | PSet l => negb (bool_decide (l = []))
  | PDict d => negb (bool_decide (d = ∅))
  | PObj _ => true
  end.

(** A value that is neither a container nor an opaque object. *)
Definition scalar (v : pyval) : Prop :=
  match v with
  | PNone | PBool _ | PInt _ | PStr _ => True
  | _ => False
  end.

(** A flat mapping: every value is a scalar. *)
Definition flat (d : gmap string pyval) : Prop := map_Forall (λ _ v, scalar v) d.

(** ** Exceptions and results *)

Inductive exn :=
  | KeyError (key : string)
  | ValueError (msg : string)
  | TypeError (msg : string)
  | AttributeError (name : string)
  | OSError (path : string)          (* FileNotFoundError, IsADirectoryError, ... *)
  | ParseError (what : string)       (* JSONDecodeError, YAMLError, TomlDecodeError, configparser.Error *)
  | ArgumentError (opt : string)
  | SystemExit (code : Z).

Inductive result (A : Type) :=
  | Ok (a : A)
  | Raise (e : exn).
Arguments Ok {A} a.
Arguments Raise {A} e.

Definition rbind {A B} (r : result A) (k : A → result B) : result B :=
  match r with
  | Ok a => k a
  | Raise e => Raise e
  end.

Global Instance result_ret : MRet result := λ A a, Ok a.
Global Instance result_bind : MBind result := λ A B k r, rbind r k.

Definition raises {A} (r : result A) : Prop :=
  match r with Ok _ => False | Raise _ => True end.

(** ** [str] methods and [os.path] *)

Module Str.

Fixpoint startswith (s p : string) : bool :=
  match p, s with
  | EmptyString, _ => true
  | String a p', String b s' => if decide (a = b) then startswith s' p' else false
  | String _ _, EmptyString => false
  end.

Fixpoint rev_onto (s acc : string) : string :=
  match s with
  | EmptyString => acc
  | String c s' => rev_onto s' (String c acc)
  end.

Definition rev (s : string) : string := rev_onto s EmptyString.

Definition endswith (s p : string) : bool := startswith (rev s) (rev p).

(** [s[n:]] *)
Fixpoint from (n : nat) (s : string) : string :=
  match n, s with
  | O, _ => s
  | S n', String _ s' => from n' s'
  | S _, EmptyString => EmptyString
  end.

(** [s[:n]] *)
Fixpoint upto (n : nat) (s : string) : string :=
  match n, s with
  | O, _ => EmptyString
  | S n', String c s' => String c (upto n' s')
  | S _, EmptyString => EmptyString
  end.

(** [s.replace(a, b)] for one-character [a] and [b] *)
Fixpoint replace (a b : ascii) (s : string) : string :=
  match s with
  | EmptyString => EmptyString
  | String c s' => String (if decide (c = a) then b else c) (replace a b s')
  end.

Definition lower_char (c : ascii) : ascii :=
  let n := nat_of_ascii c in
  if ((65 <=? n) && (n <=? 90))%nat then ascii_of_nat (n + 32) else c.

Fixpoint lower (s : string) : string :=
  match s with
  | EmptyString => EmptyString
  | String c s' => String (lower_char c) (lower s')
  end.

Fixpoint length (s : string) : nat :=
  match s with
  | EmptyString => O
  | String _ s' => S (length s')
  end.

(** [s.rfind(c)]: the last index of [c], or [-1] *)
Fixpoint rfind_from (i : Z) (c : ascii) (s : string) : Z :=
  match s with
  | EmptyString => -1
  | String a s' =>
      let r := rfind_from (i + 1) c s' in
      if r =? -1 then (if decide (a = c) then i else -1) else r
  end.

Definition rfind (c : ascii) (s : string) : Z := rfind_from 0 c s.

(** some character of [s] differs from [c] *)
Fixpoint has_other (c : ascii) (s : string) : bool :=
  match s with
  | EmptyString => false
  | String a s' => if decide (a = c) then has_other c s' else true
  end.

(** [k in s]: [k] occurs in [s] *)
Fixpoint contains (s k : string) : bool :=
  startswith s k ||
  match s with
  | EmptyString => false
  | String _ s' => contains s' k
  end.

(** [s.rstrip(c)] *)
Definition rstrip (c : ascii) (s : string) : string :=
  let fix lstrip (t : string) : string :=
    match t with
    | String a t' => if decide (a = c) then lstrip t' else t
    | EmptyString => EmptyString
    end in
  rev (lstrip (rev s)).

End Str.

Module OsPath.

(** [os.path.splitext] (posixpath): the extension starts at the last
    dot of the last path component, leading dots of that component
    not counted. *)
Definition splitext (p : string) : string * string :=
  let sepIndex := Str.rfind "/" p in
  let dotIndex := Str.rfind "." p in
  if (sepIndex <? dotIndex)
     && Str.has_other "."
          (Str.from (Z.to_nat (sepIndex + 1)) (Str.upto (Z.to_nat dotIndex) p))
  then (Str.upto (Z.to_nat dotIndex) p, Str.from (Z.to_nat dotIndex) p)
  else (p, "").

(** [os.path.dirname] (posixpath) *)
Definition dirname (p : string) : string :=
  let i := Z.to_nat (Str.rfind "/" p + 1) in
  let head := Str.upto i p in
  if Str.has_other "/" head then Str.rstrip "/" head else head.

End OsPath.

(** ** The libraries behind the format layer

    [text] is the content of a file, a Python [str] that the module only
    passes between a library and a file.  [ConfigParser] is the state of
    a [configparser.ConfigParser] object. *)

Class Libs := {
  text : Type;
  (** [json.dumps(d, indent=i)] and [json.loads] *)
  json_dumps : gmap string pyval → pyval → result text;
  json_loads : text → result pyval;
  (** [yaml.dump(d, default_flow_style=f)] and [yaml.safe_load] *)
  yaml_dump : gmap string pyval → pyval → result text;
  yaml_safe_load : text → result pyval;
  (** [toml.dumps(d, encoder=e)] and [toml.loads], which returns a dict *)
  toml_dumps : gmap string pyval → pyval → result text;
  toml_loads : text → result (gmap string pyval);
  (** [repr(d)] and [str(v)] *)
  py_repr : gmap string pyval → text;
  py_str : pyval → string;
  (** [configparser.ConfigParser] *)
  ConfigParser : Type;
  cp_new : ConfigParser;                                           (* ConfigParser() *)
  cp_read_string : ConfigParser → text → result ConfigParser;      (* config.read_string(content) *)
  cp_sections : ConfigParser → list string;                        (* config.sections() *)
  cp_items : ConfigParser → string → result (gmap string string);  (* dict(config.items(s)) *)
  cp_setitem : ConfigParser → string → string → string → result ConfigParser;
                                                                   (* config[section][key] = value *)
  cp_write : ConfigParser → text;                                  (* config.write(sio); sio.getvalue() *)
}.

(** ** Files

    A path names a file, with the codec its bytes were written through
    and its permission bits, or a directory.  Paths are POSIX paths and
    are compared as written; the empty path names nothing; the umask is
    0, so that a new file gets the bits [0o666] (438) and a new
    directory the bits it is asked for, [0o777] (511) by default. *)

Inductive codec := Plain | Bz2 | Gzip | Lzma.

Global Instance codec_eq_dec : EqDecision codec.
Proof. solve_decision. Defined.

Inductive node `{Libs} :=
  | File (c : codec) (content : text) (mode : Z)
  | Dir (mode : Z).

Section Program.
Context `{L : Libs}.

Abbreviation fsys := (gmap string node).

(** [os.path.exists] *)
Definition exists_ (fs : fsys) (p : string) : bool :=
  negb (bool_decide (p = "")) && bool_decide (is_Some (fs !! p)).

(** [with <opener>(p, 'r'/'rt', encoding='utf-8') as f: f.read()] through
    codec [c]; bytes written through another codec do not decode *)
Definition read_through (c : codec) (fs : fsys) (p : string) : result text :=
  if decide (p = "") then Raise (OSError p)
  else match fs !! p with
       | Some (File c' content _) =>
           if decide (c = c') then Ok content else Raise (OSError p)
       | Some (Dir _) => Raise (OSError p)
       | None => Raise (OSError p)
       end.

(** the directory a new entry [p] is created in exists *)
Definition parent_ok (fs : fsys) (p : string) : bool :=
  let d := OsPath.dirname p in
  bool_decide (d = "") || negb (Str.has_other "/" d)
  || match fs !! d with Some (Dir _) => true | _ => false end.

(** [with <opener>(p, 'wt', encoding='utf-8') as f: f.write(content)] through codec [c] *)
Definition write_through (c : codec) (fs : fsys) (p : string) (content : text)
  : result fsys :=
  if decide (p = "") then Raise (OSError p)
  else match fs !! p with
       | Some (Dir _) => Raise (OSError p)
       | Some (File _ _ m) => Ok (<[p := File c content m]> fs)
       | None => if parent_ok fs p then Ok (<[p := File c content 438]> fs)
                 else Raise (OSError p)
       end.

(** [os.chmod(p, mode)] *)
Definition chmod (fs : fsys) (p : string) (mode : Z) : result fsys :=
  if decide (p = "") then Raise (OSError p)
  else match fs !! p with
       | Some (File c content _) => Ok (<[p := File c content mode]> fs)
       | Some (Dir _) => Ok (<[p := Dir mode]> fs)
       | None => Raise (OSError p)
       end.

(** [os.makedirs(d, mode=mode, exist_ok=True)]; the recursion on the
    parent ends within the length of the path *)
Fixpoint makedirs_fuel (fuel : nat) (fs : fsys) (d : string) (mode : Z) : result fsys :=
  match fs !! d with
  | Some (Dir _) => Ok fs
  | Some (File _ _ _) => Raise (OSError d)
  | None =>
      if parent_ok fs d then Ok (<[d := Dir mode]> fs)
      else match fuel with
           | O => Raise (OSError d)
           | S fuel' =>
               fs' ← makedirs_fuel fuel' fs (OsPath.dirname d) 511;
               Ok (<[d := Dir mode]> fs')
           end
  end.

Definition makedirs (fs : fsys) (d : string) (mode : Z) : result fsys :=
  if decide (d = "") then Raise (OSError d)
  else makedirs_fuel (Str.length d) fs d mode.

(** ** Class attributes of [ArgumentParserExtd] *)

Definition INI_SECTION : string := "DEFAULT".
Definition TOML_SECTION : string := "DEFAULT".
Definition CONFIG_FORMAT : list string := ["ini"; "yaml"; "json"; "toml"].
Definition COMPRESS_EXT : list string := [".bz2"; ".gz"; ".xz"].

(** The names the class body binds.  [self.__class__.<name>] finds
    these and the names inherited from [argparse.ArgumentParser], none
    of which the module looks up this way, and raises [AttributeError]
    for a name bound in neither, as [ConfigActionExt] is. *)
Definition class_attributes : list string :=
  ["INI_SECTION"; "TOML_SECTION"; "CONFIG_FORMAT"; "COMPRESS_EXT";
   "NamespaceExtd"; "ConfigActionExtd";
   "__init__"; "parse_args"; "args"; "append_write_config_exclude";
   "list_opt_arg"; "add_argument_help"; "help_action";
   "add_argument_verbose"; "add_argument_quiet"; "add_argument_config";
   "add_argument_save_config"; "save_config_action"; "load_configfile";
   "load_config"; "read_config"; "open_compressed"; "write_configfile";
   "dict_to_string"; "args_to_string"; "skimmed_args_to_string";
   "write_config"].

Definition class_getattr (name : string) : result string :=
  if bool_decide (name ∈ class_attributes) then Ok name
  else Raise (AttributeError name).

(** ** [NamespaceExtd] *)

(** [namespace[name]] *)
Definition ns_getitem (ns : gmap string pyval) (name : string) : result pyval :=
  match ns !! name with
  | Some v => Ok v
  | None => Raise (KeyError name)
  end.

(** [namespace.update_from_dict(data)]: [setattr] for every item of
    [data]; an object without [items] raises. *)
Definition update_from_dict (ns : gmap string pyval) (data : pyval)
  : result (gmap string pyval) :=
  match data with
  | PDict d => Ok (map_fold (λ key value ns', <[key := value]> ns') ns d)
  | _ => Raise (AttributeError "items")
  end.

(** [namespace.to_dict()] *)
Definition to_dict (ns : gmap string pyval) : gmap string pyval := ns.

(** ** The codec layer: [open_compressed] *)

Definition open_compressed (f_path : string) : codec :=
  if Str.endswith f_path ".bz2" then Bz2
  else if Str.endswith f_path ".gz" then Gzip
  else if Str.endswith f_path ".xz" then Lzma
  else Plain.

(** ** The format layer: [read_config] *)

(** [{k: v for x in xs if cond}], with [k] and [v] read off [x] by [kv] *)
Definition dict_comp {A} (xs : list A) (cond : A → result bool)
    (kv : A → result (string * pyval)) : result (gmap string pyval) :=
  foldl (λ acc x,
           d ← acc;
           c ← cond x;
           if c : bool then p ← kv x; Ok (<[p.1 := p.2]> d) else Ok d)
        (Ok ∅) xs.

(** [s == toml_section] for an item [s] of [config.items()]: a
    [(key, value)] tuple is never equal to a [str]. *)
Definition item_eq_str (s : string * pyval) (name : string) : bool := false.

Definition read_config (fs : fsys) (file_path : string)
    (ini_section toml_section : string) : result pyval :=
  let '(bn0, ext) := OsPath.splitext file_path in
  let compressed := bool_decide (Str.lower ext ∈ COMPRESS_EXT) in
  content ← (if compressed
             then read_through (open_compressed file_path) fs file_path
             else read_through Plain fs file_path);
  let bn := if compressed then bn0 else file_path in
  if Str.endswith bn ".json" then
    json_loads content
  else if Str.endswith bn ".yaml" || Str.endswith bn ".yml" then
    yaml_safe_load content
  else if Str.endswith bn ".ini" then
    config ← cp_read_string cp_new content;
    d ← dict_comp (cp_sections config)
          (λ s, Ok (bool_decide (s = ini_section)))
          (λ s, items ← cp_items config s; Ok (s, PDict (PStr <$> items)));
    Ok (PDict d)
  else if Str.endswith bn ".toml" then
    config ← toml_loads content;
    d ← dict_comp (map_to_list config)
          (λ s, Ok (item_eq_str s toml_section))
          (λ s, Raise (AttributeError "items"));    (* s.items() on a tuple *)
    Ok (PDict d)
  else
    Raise (ValueError "Unsupported config file format").

(** ** The format layer: [dict_to_string] *)

(** [k in coll] for a string [k]: by equality on the elements of a list,
    tuple or set, on the keys of a dict (or of its [keys()] view), as a
    substring test on a [str]; other objects are not iterable. *)
Definition py_contains (coll : pyval) (k : string) : result bool :=
  match coll with
  | PList l | PTuple l | PSet l =>
      Ok (existsb (λ x, match x with PStr s => bool_decide (s = k) | _ => false end) l)
  | PDict d => Ok (bool_decide (is_Some (d !! k)))
  | PStr s => Ok (Str.contains s k)
  | _ => Raise (TypeError "argument is not iterable")
  end.

(** [{k: v for k, v in data.items() if k not in exclude_keys}] *)
Definition skim (data : gmap string pyval) (exclude_keys : pyval)
  : result (gmap string pyval) :=
  dict_comp (map_to_list data)
    (λ kv, b ← py_contains exclude_keys kv.1; Ok (negb b))
    (λ kv, Ok kv).

Definition dict_to_string (data : gmap string pyval) (exclude_keys : pyval)
    (output_format : string) (json_indent yaml_default_flow_style : pyval)
    (ini_section : string) (toml_encoder : pyval) (toml_section : string)
  : result text :=
  (* exclude_keys.keys() if isinstance(exclude_keys, dict): same membership *)
  skim_data ← skim data exclude_keys;
  if Str.endswith output_format "json" then
    json_dumps skim_data json_indent
  else if Str.endswith output_format "yaml" || Str.endswith output_format "yml" then
    yaml_dump skim_data yaml_default_flow_style
  else if Str.endswith output_format "ini" then
    config ← foldl (λ acc kv, config ← acc;
                              cp_setitem config ini_section kv.1 (py_str kv.2))
                   (Ok cp_new) (map_to_list skim_data);
    Ok (cp_write config)
  else if Str.endswith output_format "toml" then
    toml_dumps {[ toml_section := PDict skim_data ]} toml_encoder
  else
    Ok (py_repr skim_data).

(** ** The parser object and the machine it runs on *)

(** What [argparse] keeps of a registered option. *)
Inductive action_kind :=
  | AStore                       (* action='store' *)
  | AStoreTrue                   (* action='store_true' *)
  | AStoreFalse                  (* action='store_false' *)
  | AStoreOpt (const : pyval)    (* nargs='?', const=const *)
  | AHelp                        (* action='help' *)
  | AConfig.                     (* action=ConfigActionExtd *)

Record action := {
  option_strings : list string;
  dest : string;
  act_default : option pyval;    (* None: argparse.SUPPRESS *)
  kind : action_kind;
}.

Inductive log_event :=
  | FileNotExists (conf_path : pyval)    (* the verbose message of load_configfile *)
  | UsageError (msg : string)            (* parser.error *)
  | HelpText.                            (* print_help *)

Record state := {
  files : fsys;
  output : list log_event;                       (* stdout and stderr *)
  namespace : gmap string pyval;                 (* self.namespace.__dict__ *)
  option_key_alist : gmap string pyval;
  write_config_exclude_default : list string;
  json_indent : pyval;
  yaml_default_flow_style : pyval;
  actions : list action;                         (* self._actions *)
}.

Definition set_files (f : fsys) (st : state) : state :=
  {| files := f; output := output st; namespace := namespace st;
     option_key_alist := option_key_alist st;
     write_config_exclude_default := write_config_exclude_default st;
     json_indent := json_indent st;
     yaml_default_flow_style := yaml_default_flow_style st;
     actions := actions st |}.

Definition log (e : log_event) (st : state) : state :=
  {| files := files st; output := output st ++ [e]; namespace := namespace st;
     option_key_alist := option_key_alist st;
     write_config_exclude_default := write_config_exclude_default st;
     json_indent := json_indent st;
     yaml_default_flow_style := yaml_default_flow_style st;
     actions := actions st |}.

Definition set_namespace (ns : gmap string pyval) (st : state) : state :=
  {| files := files st; output := output st; namespace := ns;
     option_key_alist := option_key_alist st;
     write_config_exclude_default := write_config_exclude_default st;
     json_indent := json_indent st;
     yaml_default_flow_style := yaml_default_flow_style st;
     actions := actions st |}.

Definition set_option_key (k : string) (v : pyval) (st : state) : state :=
  {| files := files st; output := output st; namespace := namespace st;
     option_key_alist := <[k := v]> (option_key_alist st);
     write_config_exclude_default := write_config_exclude_default st;
     json_indent := json_indent st;
     yaml_default_flow_style := yaml_default_flow_style st;
     actions := actions st |}.

Definition set_exclude (l : list string) (st : state) : state :=
  {| files := files st; output := output st; namespace := namespace st;
     option_key_alist := option_key_alist st;
     write_config_exclude_default := l;
     json_indent := json_indent st;
     yaml_default_flow_style := yaml_default_flow_style st;
     actions := actions st |}.

Definition set_actions (l : list action) (st : state) : state :=
  {| files := files st; output := output st; namespace := namespace st;
     option_key_alist := option_key_alist st;
     write_config_exclude_default := write_config_exclude_default st;
     json_indent := json_indent st;
     yaml_default_flow_style := yaml_default_flow_style st;
     actions := l |}.

(** A computation: it returns or raises, and leaves a state either way. *)
Definition M (A : Type) : Type := state → state * result A.

Definition ret {A} (a : A) : M A := λ st, (st, Ok a).
Definition raise {A} (e : exn) : M A := λ st, (st, Raise e).
Definition bind {A B} (m : M A) (k : A → M B) : M B :=
  λ st, match m st with
        | (st', Ok a) => k a st'
        | (st', Raise e) => (st', Raise e)
        end.
Definition lift {A} (r : result A) : M A := λ st, (st, r).
Definition get : M state := λ st, (st, Ok st).
Definition modify (f : state → state) : M unit := λ st, (f st, Ok tt).

Global Instance M_ret : MRet M := @ret.
Global Instance M_bind : MBind M := λ A B k m, bind m k.

(** a step on the file system alone; a failed step leaves it as it was *)
Definition fs_op (f : fsys → result fsys) : M unit :=
  λ st, match f (files st) with
        | Ok fs' => (set_files fs' st, Ok tt)
        | Raise e => (st, Raise e)
        end.

Fixpoint for_each {A} (xs : list A) (body : A → M unit) : M unit :=
  match xs with
  | [] => ret tt
  | x :: xs' => body x ;; for_each xs' body
  end.

(** ** The codec and format layers on files: [write_configfile] *)

Definition write_configfile (f_path : pyval) (data : gmap string pyval)
    (exclude_keys : pyval) (f_mode : Z) (mk_dir : bool) (d_mode : Z)
    (json_indent yaml_default_flow_style : pyval)
    (ini_section toml_section : string) : M unit :=
  match f_path with
  | PStr p =>
      if decide (p = "") then ret tt                       (* len(f_path) < 1 *)
      else
        (if mk_dir then
           let d_path := OsPath.dirname p in
           if decide (d_path = "") then ret tt
           else fs_op (λ fs, makedirs fs d_path d_mode)
         else ret tt) ;;
        let '(bn0, ext) := OsPath.splitext p in
        let bn := if bool_decide (Str.lower ext ∈ COMPRESS_EXT) then bn0 else p in
        content ← lift (dict_to_string data exclude_keys (OsPath.splitext bn).2
                          json_indent yaml_default_flow_style
                          ini_section PNone toml_section);
        fs_op (λ fs, write_through (open_compressed p) fs p content) ;;
        fs_op (λ fs, chmod fs p f_mode)
  | _ => ret tt                                            (* not isinstance(f_path, str) *)
  end.

(** ** The config engine: loading *)

Definition load_configfile (conf_path : pyval) (verbose : bool)
    (ini_section toml_section : string) : M unit :=
  st ← get;
  match nonempty_str conf_path with
  | Some p =>
      if exists_ (files st) p then
        data ← lift (read_config (files st) p ini_section toml_section);
        ns ← lift (update_from_dict (namespace st) data);
        modify (set_namespace ns)
      else if verbose then modify (log (FileNotExists conf_path)) else ret tt
  | None => if verbose then modify (log (FileNotExists conf_path)) else ret tt
  end.

Definition load_config (conf_path : pyval) (verbose : bool) : M unit :=
  load_configfile conf_path verbose INI_SECTION TOML_SECTION.

(** ** The exclusion registry *)

(** the option name of [x]: leading [--] or [-] stripped, [-] to [_] *)
Definition optname (x : string) : string :=
  Str.replace "-" "_"
    (if Str.startswith x "--" then Str.from 2 x
     else if Str.startswith x "-" then Str.from 1 x
     else x).

(** one turn of the loop of [append_write_config_exclude] *)
Definition exclude_one (l : list string) (x : pyval) : list string :=
  match nonempty_str x with
  | None => l                                              (* continue *)
  | Some s => if bool_decide (optname s ∈ l) then l else l ++ [optname s]
  end.

Definition append_write_config_exclude (options : pyval) : M unit :=
  let xs := match options with
            | PList l | PTuple l | PSet l => l
            | _ => [options]
            end in
  modify (λ st, set_exclude (foldl exclude_one (write_config_exclude_default st) xs) st).

(** ** The parser facade *)

Definition list_opt_arg (short_opt long_opt dest : pyval) : pyval * list string :=
  let '(opt_key, cargs) :=
    match nonempty_str short_opt with
    | Some so => (PStr (if Str.startswith so "-" then Str.from 1 so else so),
                  [if Str.startswith so "-" then Str.upto 2 so
                   else "-" +:+ Str.upto 1 so])
    | None => (PNone, [])
    end in
  let '(opt_key, cargs) :=
    match nonempty_str long_opt with
    | Some lo => (PStr (Str.replace "-" "_"
                          (if Str.startswith lo "--" then Str.from 2 lo else lo)),
                  cargs ++ [if Str.startswith lo "--" then lo else "--" +:+ lo])
    | None => (opt_key, cargs)
    end in
  let opt_key :=
    match nonempty_str dest with
    | Some d => PStr (optname d)
    | None => opt_key
    end in
  (opt_key, cargs).

(** [str.lstrip('-')] *)
Fixpoint lstrip_dash (s : string) : string :=
  match s with
  | String "-" s' => lstrip_dash s'
  | _ => s
  end.

(** [argparse]: the [dest] of an option without [dest=] is its first long
    option string, or its first option string, without the leading
    dashes and with [-] turned into [_]. *)
Definition infer_dest (cargs : list string) : result string :=
  let long := filter (λ o, Str.startswith o "--") cargs in
  match long ++ cargs with
  | [] => Raise (ValueError "no option string")
  | o :: _ =>
      let d := lstrip_dash o in
      if decide (d = "") then Raise (ValueError "dest= is required")
      else Ok (Str.replace "-" "_" d)
  end.

(** [argparse]'s [add_argument] with option strings [cargs] and the
    keywords [action], [dest] and [default]; an option string already registered is a conflict. *)
Definition add_argument (cargs : list string) (k : action_kind)
    (dest_kw : pyval) (dflt : option pyval) : M unit :=
  st ← get;
  d ← lift (match dest_kw with
            | PNone => infer_dest cargs
            | PStr d => Ok d
            | _ => Raise (TypeError "dest")
            end);
  match filter (λ o, bool_decide (Exists (λ a, o ∈ option_strings a) (actions st))) cargs with
  | o :: _ => raise (ArgumentError o)
  | [] => modify (set_actions (actions st ++
                     [{| option_strings := cargs; dest := d;
                         act_default := dflt; kind := k |}]))
  end.

(** the keyword arguments the helpers look at *)
Record kwds := {
  kw_dest : pyval;                    (* kwds.get('dest') *)
  kw_action : option action_kind;     (* kwds.get('action') *)
}.

Definition default_of (k : action_kind) : option pyval :=
  match k with
  | AStoreTrue => Some (PBool false)
  | AStoreFalse => Some (PBool true)
  | AHelp => None
  | _ => Some PNone
  end.

(** the common tail of the helpers: exclude the option's own key *)
Definition exclude_own (opt_key : pyval) : M unit :=
  match nonempty_str opt_key with
  | Some k => append_write_config_exclude (PStr k)
  | None => ret tt
  end.

Definition add_argument_flag (name : string) (dflt_action : action_kind)
    (short_opt long_opt : pyval) (kw : kwds) : M unit :=
  let '(opt_key, cargs) := list_opt_arg short_opt long_opt (kw_dest kw) in
  modify (set_option_key name opt_key) ;;
  (if decide (cargs = []) then ret tt
   else let k := default dflt_action (kw_action kw) in
        add_argument cargs k (kw_dest kw) (default_of k)) ;;
  exclude_own opt_key.

Definition add_argument_help (short_opt long_opt : pyval) (kw : kwds) : M unit :=
  add_argument_flag "help" AStoreTrue short_opt long_opt kw.

Definition add_argument_verbose (short_opt long_opt : pyval) (kw : kwds) : M unit :=
  add_argument_flag "verbose" AStoreTrue short_opt long_opt kw.

Definition add_argument_quiet (short_opt long_opt : pyval) (kw : kwds) : M unit :=
  add_argument_flag "quiet"
    (match nonempty_str (kw_dest kw) with
     | Some _ => AStoreFalse
     | None => AStoreTrue
     end)
    short_opt long_opt kw.

Definition add_argument_config (short_opt long_opt : pyval) (kw : kwds) : M unit :=
  let '(opt_key, cargs) := list_opt_arg short_opt long_opt (kw_dest kw) in
  modify (set_option_key "configfile" opt_key) ;;
  (if decide (cargs = []) then ret tt
   else lift (class_getattr "ConfigActionExt") ;;      (* self.__class__.ConfigActionExt *)
        add_argument cargs AConfig (kw_dest kw) (Some PNone)) ;;
  exclude_own opt_key.

Definition add_argument_save_config (short_opt long_opt : pyval)
    (default_path : pyval) (kw : kwds) : M unit :=
  let '(opt_key, cargs) := list_opt_arg short_opt long_opt (kw_dest kw) in
  modify (set_option_key "save_configfile" opt_key) ;;
  (if decide (cargs = []) then ret tt
   else match kw_action kw with
        | None | Some AStore =>
            add_argument cargs (AStoreOpt default_path) (kw_dest kw) (Some PNone)
        | Some _ => raise (TypeError "nargs")
        end) ;;
  exclude_own opt_key.

(** [d[key]] for a key that need not be a string *)
Definition getitem (d : gmap string pyval) (key : pyval) : result pyval :=
  match key with
  | PStr k => ns_getitem d k
  | _ => Raise (KeyError "")
  end.

Definition help_action : M unit :=
  st ← get;
  key ← lift (ns_getitem (option_key_alist st) "help");
  match key with
  | PNone => ret tt
  | _ => v ← lift (getitem (namespace st) key);
         if truthy v
         then modify (log HelpText) ;; raise (SystemExit 0)
         else ret tt
  end.

(** ** The config engine: saving *)

(** [l + r] for a list [l]: only a list can be concatenated to it *)
Definition list_concat (l : list string) (r : pyval) : result pyval :=
  match r with
  | PList r' => Ok (PList ((PStr <$> l) ++ r'))
  | _ => Raise (TypeError "can only concatenate list to list")
  end.

Definition write_config (f_path : pyval) (exclude_keys : pyval)
    (f_mode : Z) (mk_dir : bool) (d_mode : Z) : M unit :=
  st ← get;
  excl ← lift (list_concat (write_config_exclude_default st) exclude_keys);
  write_configfile f_path (to_dict (namespace st)) excl f_mode mk_dir d_mode
    (json_indent st) (yaml_default_flow_style st) INI_SECTION TOML_SECTION.

(** [self.write_config(self, exclude_keys=..., ...)]: the parser object
    itself is what the call passes as [f_path]. *)
Definition save_config_action (exclude_keys : pyval)
    (f_mode : Z) (mk_dir : bool) (d_mode : Z) : M unit :=
  st ← get;
  key ← lift (ns_getitem (option_key_alist st) "save_configfile");
  save_path ← lift (getitem (namespace st) key);
  match nonempty_str save_path with
  | Some _ => write_config (PObj "ArgumentParserExtd") exclude_keys f_mode mk_dir d_mode
  | None => ret tt
  end.

Definition args_to_string (exclude_keys : pyval) (output_format : string)
  : M text :=
  st ← get;
  lift (dict_to_string (to_dict (namespace st)) exclude_keys output_format
          (json_indent st) (yaml_default_flow_style st)
          INI_SECTION PNone TOML_SECTION).

Definition skimmed_args_to_string (exclude_keys : pyval) (output_format : string)
  : M text :=
  st ← get;
  excl ← lift (list_concat (write_config_exclude_default st) exclude_keys);
  lift (dict_to_string (to_dict (namespace st)) excl output_format
          (json_indent st) (yaml_default_flow_style st)
          INI_SECTION PNone TOML_SECTION).

(** ** Parsing *)

(** [parser.error(msg)]: the message goes to stderr and the process
    exits with status 2. *)
Definition parser_error {A} (msg : string) : M A :=
  modify (log (UsageError msg)) ;; raise (SystemExit 2).

(** [ConfigActionExtd.__call__(parser, namespace, values)] *)
Definition ConfigActionExtd_call (values : string) : M unit :=
  st ← get;
  if exists_ (files st) values then
    conf_data ← lift (read_config (files st) values INI_SECTION TOML_SECTION);
    ns ← lift (update_from_dict (namespace st) conf_data);
    modify (set_namespace ns)
  else parser_error ("Config file " +:+ values +:+ " not found.").

(** An option met on the command line, with the value given to it. *)
Record occurrence := Occ { occ_option : string; occ_value : option pyval }.

Definition setattr (name : string) (v : pyval) : M unit :=
  modify (λ st, set_namespace (<[name := v]> (namespace st)) st).

(** what [argparse] does when it meets an option of action [a] *)
Definition take_action (a : action) (v : option pyval) : M unit :=
  match kind a, v with
  | AStore, Some x => setattr (dest a) x
  | AStore, None => parser_error "expected one argument"
  | AStoreTrue, None => setattr (dest a) (PBool true)
  | AStoreFalse, None => setattr (dest a) (PBool false)
  | AStoreTrue, Some _ | AStoreFalse, Some _ => parser_error "ignored explicit argument"
  | AStoreOpt _, Some x => setattr (dest a) x
  | AStoreOpt const, None => setattr (dest a) const
  | AHelp, _ => modify (log HelpText) ;; raise (SystemExit 0)
  | AConfig, Some (PStr p) => ConfigActionExtd_call p
  | AConfig, _ => parser_error "expected one argument"
  end.

(** [argparse]: an attribute the namespace does not have yet gets the
    action's default. *)
Definition set_defaults (acts : list action) (ns : gmap string pyval)
  : gmap string pyval :=
  foldl (λ ns a, match act_default a, ns !! dest a with
                 | Some d, None => <[dest a := d]> ns
                 | _, _ => ns
                 end) ns acts.

(** [argparse.ArgumentParser.parse_args(args, namespace=self.namespace)] *)
Definition super_parse_args (args : list occurrence) : M unit :=
  modify (λ st, set_namespace (set_defaults (actions st) (namespace st)) st) ;;
  for_each args (λ o,
    st ← get;
    match filter (λ a, bool_decide (occ_option o ∈ option_strings a)) (actions st) with
    | a :: _ => take_action a (occ_value o)
    | [] => parser_error "unrecognized arguments"
    end).

Definition parse_args (args : list occurrence) (action_help : bool)
  : M (gmap string pyval) :=
  super_parse_args args ;;
  (if action_help then help_action else ret tt) ;;
  st ← get;
  ret (namespace st).

(** ** Construction *)

(** the object before [__init__] has run, on a machine with files [fs] *)
Definition blank (fs : fsys) : state :=
  {| files := fs; output := []; namespace := ∅; option_key_alist := ∅;
     write_config_exclude_default := []; json_indent := PNone;
     yaml_default_flow_style := PNone; actions := [] |}.

Definition argparse_help : action :=
  {| option_strings := ["-h"; "--help"]; dest := "help";
     act_default := None; kind := AHelp |}.

Definition init (conf_path exclude_save indent flow_style : pyval)
    (add_help : bool) : M unit :=
  (* the call of argparse's own __init__ *)
  modify (set_actions (if add_help then [argparse_help] else [])) ;;
  modify (λ st,
    {| files := files st; output := output st;
       namespace := ∅; option_key_alist := ∅;
       write_config_exclude_default := write_config_exclude_default st;
       json_indent := indent; yaml_default_flow_style := flow_style;
       actions := actions st |}) ;;
  load_config conf_path false ;;
  modify (set_exclude []) ;;
  append_write_config_exclude exclude_save.

End Program.

(** ** A reference implementation of the libraries

    A text is the document a library writes, and reads back.  An INI
    document is its section headers with their pairs, [DEFAULT] among
    them; a text handed to the reader of another format is a parse
    error.  Values of an INI document are free of [%], so that
    [configparser]'s interpolation leaves them as they are. *)

Module Ref.

Inductive doc :=
  | Json (v : pyval)
  | Yaml (v : pyval)
  | Toml (t : gmap string pyval)
  | Ini (sections : gmap string (gmap string string))
  | Repr (d : gmap string pyval).

(** what [json.dumps] accepts *)
Fixpoint jsonable (v : pyval) : bool :=
  match v with
  | PNone | PBool _ | PInt _ | PStr _ => true
  | PList l | PTuple l => forallb jsonable l
  | PDict d => map_fold (λ _ x acc, jsonable x && acc) true d
  | PSet _ | PObj _ => false
  end.

(** what [json.loads] gives back: a tuple was written as an array *)
Fixpoint json_value (v : pyval) : pyval :=
  match v with
  | PList l | PTuple l => PList (json_value <$> l)
  | PDict d => PDict (json_value <$> d)
  | _ => v
  end.

(** what [yaml.safe_load] constructs *)
Fixpoint yaml_safe (v : pyval) : bool :=
  match v with
  | PNone | PBool _ | PInt _ | PStr _ => true
  | PList l | PSet l => forallb yaml_safe l
  | PDict d => map_fold (λ _ x acc, yaml_safe x && acc) true d
  | PTuple _ | PObj _ => false
  end.

Definition not_none (v : pyval) : bool :=
  match v with PNone => false | _ => true end.

(** [toml.dumps] leaves out the keys whose value is [None] *)
Fixpoint toml_value (v : pyval) : pyval :=
  match v with
  | PDict d => PDict (filter (λ kv, Is_true (not_none kv.2)) (toml_value <$> d))
  | _ => v
  end.

(** [str(v)]; exact on [None], booleans, integers and strings *)
Definition str (v : pyval) : string :=
  match v with
  | PNone => "None"
  | PBool true => "True"
  | PBool false => "False"
  | PInt z => pretty z
  | PStr s => s
  | PList _ => "[...]"
  | PTuple _ => "(...)"
  | PSet _ | PDict _ => "{...}"
  | PObj c => "<" +:+ c +:+ " object>"
  end.

(** no value of the document has a [%] in it *)
Definition interpolation_free (secs : gmap string (gmap string string)) : Prop :=
  map_Forall (λ _ sec, map_Forall (λ _ v, Str.contains v "%" = false) sec) secs.

(** the state of a [ConfigParser]: the pairs of [DEFAULT] and the
    other sections *)
Record parser := {
  defaults : gmap string string;
  sections : gmap string (gmap string string);
}.

(** [optionxform]: option names are kept in lower case, and a name met
    twice in a section is an error *)
Definition lower_keys (m : gmap string string) : result (gmap string string) :=
  foldl (λ acc kv,
           m' ← acc;
           match m' !! Str.lower kv.1 with
           | Some _ => Raise (ParseError "DuplicateOptionError")
           | None => Ok (<[Str.lower kv.1 := kv.2]> m')
           end)
        (Ok ∅) (map_to_list m).

Definition read_string (c : parser) (t : doc) : result parser :=
  match t with
  | Ini secs =>
      secs' ← foldl (λ acc kv,
                       m ← acc;
                       sec ← lower_keys kv.2;
                       Ok (<[kv.1 := sec]> m))
                    (Ok ∅) (map_to_list secs);
      Ok {| defaults := default ∅ (secs' !! "DEFAULT") ∪ defaults c;
            sections := delete "DEFAULT" secs' ∪ sections c |}
  | _ => Raise (ParseError "MissingSectionHeaderError")
  end.

Definition items (c : parser) (s : string) : result (gmap string string) :=
  match sections c !! s with
  | Some sec => Ok (sec ∪ defaults c)
  | None => if decide (s = "DEFAULT") then Ok (defaults c)
            else Raise (KeyError s)
  end.

Definition setitem (c : parser) (section key value : string) : result parser :=
  if Str.contains value "%" then Raise (ValueError "invalid interpolation syntax")
  else if decide (section = "DEFAULT") then
    Ok {| defaults := <[Str.lower key := value]> (defaults c);
          sections := sections c |}
  else match sections c !! section with
       | Some sec =>
           Ok {| defaults := defaults c;
                 sections := <[section := <[Str.lower key := value]> sec]> (sections c) |}
       | None => Raise (KeyError section)
       end.

Definition write (c : parser) : doc :=
  Ini (if decide (defaults c = ∅) then sections c
       else <["DEFAULT" := defaults c]> (sections c)).

End Ref.

Definition ref_libs : Libs := {|
  text := Ref.doc;
  json_dumps d _ :=
    if Ref.jsonable (PDict d) then Ok (Ref.Json (Ref.json_value (PDict d)))
    else Raise (TypeError "not JSON serializable");
  json_loads t :=
    match t with Ref.Json v => Ok v | _ => Raise (ParseError "JSONDecodeError") end;
  yaml_dump d _ := Ok (Ref.Yaml (PDict d));
  yaml_safe_load t :=
    match t with
    | Ref.Yaml v => if Ref.yaml_safe v then Ok v else Raise (ParseError "ConstructorError")
    | _ => Raise (ParseError "YAMLError")
    end;
  toml_dumps d _ :=
    match Ref.toml_value (PDict d) with
    | PDict d' => Ok (Ref.Toml d')
    | _ => Raise (TypeError "toml")
    end;
  toml_loads t :=
    match t with Ref.Toml d => Ok d | _ => Raise (ParseError "TomlDecodeError") end;
  py_repr d := Ref.Repr d;
  py_str := Ref.str;
  ConfigParser := Ref.parser;
  cp_new := {| Ref.defaults := ∅; Ref.sections := ∅ |};
  cp_read_string := Ref.read_string;
  cp_sections c := (map_to_list (Ref.sections c)).*1;
  cp_items := Ref.items;
  cp_setitem := Ref.setitem;
  cp_write := Ref.write;
|}.

(** ** Statements read off the specification *)

(** the name a path is recognised by: the path, without its
    compression extension when it has one *)
Definition format_name (file_path : string) : string :=
  let '(bn, ext) := OsPath.splitext file_path in
  if bool_decide (Str.lower ext ∈ COMPRESS_EXT) then bn else file_path.

(** a name that ends in the extension of one of the four formats *)
Definition known_format (name : string) : bool :=
  existsb (Str.endswith name) [".json"; ".yaml"; ".yml"; ".ini"; ".toml"].

(** an output format that selects one of the four encoders *)
Definition supported_output (output_format : string) : bool :=
  existsb (Str.endswith output_format) ["json"; "yaml"; "yml"; "ini"; "toml"].

(** the collections [exclude_keys] is declared to be *)
Definition collection (v : pyval) : Prop :=
  match v with
  | PList _ | PTuple _ | PSet _ | PDict _ => True
  | _ => False
  end.

(** [k in exclude_keys] for such a collection *)
Definition excluded (exclude_keys : pyval) (k : string) : bool :=
  match exclude_keys with
  | PList l | PTuple l | PSet l =>
      existsb (λ x, match x with PStr s => bool_decide (s = k) | _ => false end) l
  | PDict d => bool_decide (is_Some (d !! k))
  | _ => false
  end.

(** A call of a method on the parser object, and a run of such calls:
    the state a call leaves is there for the next one, whether the call
    returned or raised. *)
Section Calls.
Context `{L : Libs}.

Inductive call :=
  | CAppendExclude (options : pyval)
  | CAddArgument (cargs : list string) (k : action_kind) (dest_kw : pyval)
      (dflt : option pyval)
  | CAddHelp (short_opt long_opt : pyval) (kw : kwds)
  | CAddVerbose (short_opt long_opt : pyval) (kw : kwds)
  | CAddQuiet (short_opt long_opt : pyval) (kw : kwds)
  | CAddConfig (short_opt long_opt : pyval) (kw : kwds)
  | CAddSaveConfig (short_opt long_opt default_path : pyval) (kw : kwds)
  | CLoadConfig (conf_path : pyval) (verbose : bool)
  | CParseArgs (args : list occurrence) (action_help : bool)
  | CSaveConfigAction (exclude_keys : pyval) (f_mode : Z) (mk_dir : bool) (d_mode : Z)
  | CWriteConfig (f_path exclude_keys : pyval) (f_mode : Z) (mk_dir : bool) (d_mode : Z)
  | CArgsToString (exclude_keys : pyval) (output_format : string)
  | CSkimmedArgsToString (exclude_keys : pyval) (output_format : string).

Definition run_call (c : call) : M unit :=
  match c with
  | CAppendExclude o => append_write_config_exclude o
  | CAddArgument cargs k d dflt => add_argument cargs k d dflt
  | CAddHelp s l kw => add_argument_help s l kw
  | CAddVerbose s l kw => add_argument_verbose s l kw
  | CAddQuiet s l kw => add_argument_quiet s l kw
  | CAddConfig s l kw => add_argument_config s l kw
  | CAddSaveConfig s l d kw => add_argument_save_config s l d kw
  | CLoadConfig p v => load_config p v
  | CParseArgs args h => parse_args args h ;; ret tt
  | CSaveConfigAction e f m d => save_config_action e f m d
  | CWriteConfig p e f m d => write_config p e f m d
  | CArgsToString e o => args_to_string e o ;; ret tt
  | CSkimmedArgsToString e o => skimmed_args_to_string e o ;; ret tt
  end.

Definition exec (st : state) (c : call) : state := (run_call c st).1.

Definition exec_all (st : state) (cs : list call) : state := foldl exec st cs.

(** the outcome of a computation for the world outside the parser: the
    files it leaves and how it ended *)
Definition outcome {A} (r : state * result A) : gmap string node * result A :=
  (files r.1, r.2).

(** the assignment [argparse] makes for an occurrence whose option
    stores a value: the attribute and what it gets *)
Definition assignment (acts : list action) (o : occurrence) : option (string * pyval) :=
  match filter (λ a, bool_decide (occ_option o ∈ option_strings a)) acts with
  | a :: _ =>
      match kind a, occ_value o with
      | AStore, Some x => Some (dest a, x)
      | AStoreTrue, None => Some (dest a, PBool true)
      | AStoreFalse, None => Some (dest a, PBool false)
      | AStoreOpt _, Some x => Some (dest a, x)
      | AStoreOpt const, None => Some (dest a, const)
      | _, _ => None
      end
  | [] => None
  end.

(** the value a command line gives to [k]: that of the last occurrence
    that assigns [k], if there is one *)
Definition cli_value (acts : list action) (args : list occurrence) (k : string)
  : option pyval :=
  foldl (λ acc o, match assignment acts o with
                  | Some (k', v) => if decide (k' = k) then Some v else acc
                  | None => acc
                  end) None args.

(** the namespace after the assignments of a command line *)
Definition assign_all (acts : list action) (args : list occurrence)
    (ns : gmap string pyval) : gmap string pyval :=
  foldl (λ ns o, match assignment acts o with
                 | Some (k, v) => <[k := v]> ns
                 | None => ns
                 end) ns args.

(** the round trip of the format layer: [dict_to_string] encodes [M]
    in the format [fmt] with section [S] and nothing excluded, the text
    is the content of the plain file [p], and [read_config] with section
    [S] reads [expected] from it *)
Definition round_trip (fmt p S : string) (indent flow_style : pyval)
    (M : gmap string pyval) (expected : pyval) : Prop :=
  ∃ content : text,
    dict_to_string M (PList []) fmt indent flow_style S PNone S = Ok content
    ∧ read_config {[ p := File Plain content 420 ]} p S S = Ok expected.

(** the text [read_config] reads from a path: through the codec of the
    name when the extension is a compression extension, plainly
    otherwise *)
Definition read_text (fs : gmap string node) (file_path : string) : result text :=
  if bool_decide (Str.lower (OsPath.splitext file_path).2 ∈ COMPRESS_EXT)
  then read_through (open_compressed file_path) fs file_path
  else read_through Plain fs file_path.

(** a computation that keeps [k] in the exclusion list *)
Definition keeps (k : string) {A} (m : M A) : Prop :=
  ∀ st, k ∈ write_config_exclude_default st →
        k ∈ write_config_exclude_default (m st).1.

End Calls.

(** ** The rest of [NamespaceExtd], and what a method leaves in place *)

Section Frames.
Context `{L : Libs}.

(** [NamespaceExtd.__getattr__], for a name the instance does not
    resolve otherwise *)
Definition ns_getattr (ns : gmap string pyval) (name : string) : result pyval :=
  match ns !! name with
  | Some v => Ok v
  | None => Raise (AttributeError name)
  end.

(** [NamespaceExtd.to_json] *)
Definition to_json (ns : gmap string pyval) : result text :=
  json_dumps ns (PInt 4).

(** [NamespaceExtd.from_json]: the decoded object is unpacked into the
    keyword arguments of [__init__], which sets one attribute for each;
    an object that is not a mapping cannot be unpacked, and a key [self]
    clashes with the first parameter of [__init__] *)
Definition from_json (json_str : text) : result (gmap string pyval) :=
  v ← json_loads json_str;
  match v with
  | PDict d =>
      match d !! "self" with
      | Some _ => Raise (TypeError "got multiple values for argument 'self'")
      | None => Ok d
      end
  | _ => Raise (TypeError "argument after ** must be a mapping")
  end.

(** a computation that takes every state to one related to it by [R] *)
Definition within (R : relation state) {A} (m : M A) : Prop :=
  ∀ st, R st (m st).1.

(** the exclusion list of [st'] is that of [st] after some registrations *)
Definition registry_grows (st st' : state) : Prop :=
  ∃ xs, write_config_exclude_default st'
        = foldl exclude_one (write_config_exclude_default st) xs.

(** every key of the namespace of [st] is a key of that of [st'] *)
Definition namespace_grows (st st' : state) : Prop :=
  ∀ k, is_Some (namespace st !! k) → is_Some (namespace st' !! k).

(** [st'] differs from [st] in its namespace and its output at most *)
Definition same_parser (st st' : state) : Prop :=
  files st' = files st
  ∧ option_key_alist st' = option_key_alist st
  ∧ write_config_exclude_default st' = write_config_exclude_default st
  ∧ json_indent st' = json_indent st
  ∧ yaml_default_flow_style st' = yaml_default_flow_style st
  ∧ actions st' = actions st.

(** the entry of the path [q] in [st], if there is one, is in [st'] *)
Definition entry_kept (q : string) (st st' : state) : Prop :=
  ∀ n, files st !! q = Some n → files st' !! q = Some n.

(** the helpers that register an option of their own, with the name
    they store its key under and their arguments *)
Definition helper_of (c : call) : option (string * pyval * pyval * kwds) :=
  match c with
  | CAddHelp s l kw => Some ("help", s, l, kw)
  | CAddVerbose s l kw => Some ("verbose", s, l, kw)
  | CAddQuiet s l kw => Some ("quiet", s, l, kw)
  | CAddSaveConfig s l _ kw => Some ("save_configfile", s, l, kw)
  | _ => None
  end.

(** a call other than [add_argument_help] *)
Definition not_add_help (c : call) : Prop :=
  match c with
  | CAddHelp _ _ _ => False
  | _ => True
  end.

(** [st'] has under [help] in [option_key_alist] what [st] has *)
Definition same_help_key (st st' : state) : Prop :=
  option_key_alist st' !! "help" = option_key_alist st !! "help".

(** a name without a dash *)
Definition no_dash (s : string) : Prop := Str.contains s "-" = false.

(** the files of [st'] are those of [st] *)
Definition same_files (st st' : state) : Prop := files st' = files st.

(** the settings of the encoders, given to the constructor, are in [st']
    what they are in [st] *)
Definition same_settings (st st' : state) : Prop :=
  json_indent st' = json_indent st
  ∧ yaml_default_flow_style st' = yaml_default_flow_style st.

(** a call other than [write_config] *)
Definition not_write_config (c : call) : Prop :=
  match c with
  | CWriteConfig _ _ _ _ _ => False
  | _ => True
  end.

End Frames.

(** ** A concrete machine, on the reference libraries *)

Module Demo.

#[local] Existing Instance ref_libs.

(** the configuration [{a: 1, b: 2}] *)
Definition conf : gmap string pyval := <["a" := PInt 1]> {[ "b" := PInt 2 ]}.

(** an INI text with the sections [DEFAULT] and [other] *)
Definition ini_text : Ref.doc :=
  Ref.Ini (<["DEFAULT" := {[ "a" := "1" ]}]> {[ "other" := {[ "b" := "2" ]} ]}).

(** a TOML text with the tables [DEFAULT] and [other] *)
Definition toml_text : Ref.doc :=
  Ref.Toml (<["DEFAULT" := PDict {[ "a" := PInt 1 ]}]>
              {[ "other" := PDict {[ "b" := PInt 2 ]} ]}).

Definition fs : gmap string (@node ref_libs) :=
  <["conf.json" := File Plain (Ref.Json (PDict conf)) 420]>
    (<["conf.ini" := File Plain ini_text 420]>
       {[ "conf.toml" := File Plain toml_text 420 ]}).

(** the parser [ArgumentParserExtd(add_help=False)] on these files *)
Definition fresh : @state ref_libs :=
  (init PNone PNone (PInt 4) (PBool false) false (blank fs)).1.

(** ... with an option [--a] that stores its value *)
Definition with_a : @state ref_libs :=
  (add_argument ["--a"] AStore PNone (Some PNone) fresh).1.

(** ... and with a namespace that holds a secret and a save path *)
Definition with_secret : @state ref_libs :=
  set_option_key "save_configfile" (PStr "save_config")
    (set_namespace (<["secret" := PStr "hunter2"]>
                      (<["save_config" := PStr "out.json"]> conf)) fresh).

End Demo.

(** ** Proofs *)

Ltac munfold :=
  unfold mbind, M_bind, bind, mret, M_ret, ret, lift, get, modify, raise,
    fs_op, result_bind, rbind in *.

Section General.
Context `{L : Libs}.

(** *** Loading a configuration that is not there *)

(** C7. Loading with an empty path, or with the path of a file that
    does not exist, returns without raising and leaves the namespace,
    the files and every attribute of the parser as they were; only the
    verbose message is added to the output when [verbose] is set.  It
    holds for [load_configfile] with any section names, hence for
    [load_config]. *)
Theorem load_missing_config_is_noop (st : state) (p : string) (verbose : bool)
    (ini_section toml_section : string) :
  p = "" ∨ exists_ (files st) p = false →
  load_configfile (PStr p) verbose ini_section toml_section st
    = (if verbose then log (FileNotExists (PStr p)) st else st, Ok tt)
  ∧ load_config (PStr p) verbose st
    = (if verbose then log (FileNotExists (PStr p)) st else st, Ok tt)
  ∧ namespace (load_config (PStr p) verbose st).1 = namespace st.
Proof.
  intros Hp.
  assert (Hgen : ∀ i t, load_configfile (PStr p) verbose i t st
                 = (if verbose then log (FileNotExists (PStr p)) st else st, Ok tt)).
  { intros i t. unfold load_configfile. munfold. simpl.
    destruct (decide (p = "")) as [->|Hne]; simpl.
    - by destruct verbose.
    - destruct Hp as [Hp|Hp]; [done|]. rewrite Hp. by destruct verbose. }
  split; [apply Hgen|]. unfold load_config. rewrite Hgen.
  split; [done|]. by destruct verbose.
Qed.

(** *** The exclusion registry *)

Lemma exclude_one_skip (l : list string) (x : pyval) :
  nonempty_str x = None → exclude_one l x = l.
Proof. unfold exclude_one. by intros ->. Qed.

Lemma exclude_one_grows (l : list string) (x : pyval) (k : string) :
  k ∈ l → k ∈ exclude_one l x.
Proof.
  intros Hk. unfold exclude_one. destruct (nonempty_str x); [|done].
  case_bool_decide; [done|]. set_solver.
Qed.

Lemma exclude_one_registers (l : list string) (s : string) :
  s ≠ "" → optname s ∈ exclude_one l (PStr s).
Proof.
  intros Hs. unfold exclude_one, nonempty_str.
  destruct (decide (s = "")); [done|].
  case_bool_decide; [done|]. set_solver.
Qed.

Lemma foldl_exclude_one_grows (xs : list pyval) (l : list string) (k : string) :
  k ∈ l → k ∈ foldl exclude_one l xs.
Proof.
  revert l. induction xs as [|x xs IH]; intros l Hk; [done|].
  simpl. apply IH. by apply exclude_one_grows.
Qed.

Lemma foldl_exclude_one_skip (xs ys : list pyval) (x : pyval) (l : list string) :
  nonempty_str x = None →
  foldl exclude_one l (xs ++ x :: ys) = foldl exclude_one l (xs ++ ys).
Proof.
  intros Hx. rewrite !foldl_app. simpl. by rewrite exclude_one_skip.
Qed.

(** C10. [append_write_config_exclude] returns without raising for
    every argument; it changes nothing but the exclusion list; a single
    string counts as the one-element list of it; an element that is not
    a non-empty string, wherever it stands in a list, a tuple or a set,
    leaves the result as if it were not there, and an argument made of
    [None], a number, a boolean or the empty string alone leaves the
    list as it was; and the constructor
    called with [exclude_save=None] ends with an empty exclusion
    list. *)
Theorem append_exclude_never_raises_and_skips_invalid :
  (∀ (options : pyval) (st : state),
     append_write_config_exclude options st
     = (set_exclude (write_config_exclude_default
                       (append_write_config_exclude options st).1) st, Ok tt))
  ∧ (∀ (s : string) (st : state),
       append_write_config_exclude (PStr s) st
       = append_write_config_exclude (PList [PStr s]) st)
  ∧ (∀ (xs ys : list pyval) (x : pyval) (st : state),
       nonempty_str x = None →
       append_write_config_exclude (PList (xs ++ x :: ys)) st
       = append_write_config_exclude (PList (xs ++ ys)) st
       ∧ append_write_config_exclude (PTuple (xs ++ x :: ys)) st
         = append_write_config_exclude (PTuple (xs ++ ys)) st
       ∧ append_write_config_exclude (PSet (xs ++ x :: ys)) st
         = append_write_config_exclude (PSet (xs ++ ys)) st)
  ∧ (∀ (z : Z) (b : bool) (st : state),
       write_config_exclude_default (append_write_config_exclude PNone st).1
       = write_config_exclude_default st
       ∧ write_config_exclude_default (append_write_config_exclude (PInt z) st).1
         = write_config_exclude_default st
       ∧ write_config_exclude_default (append_write_config_exclude (PBool b) st).1
         = write_config_exclude_default st
       ∧ write_config_exclude_default (append_write_config_exclude (PStr "") st).1
         = write_config_exclude_default st)
  ∧ (∀ (fs : gmap string node) (conf_path indent flow_style : pyval) (add_help : bool),
       write_config_exclude_default
         (init conf_path PNone indent flow_style add_help (blank fs)).1 = []
       ∧ (init PNone PNone indent flow_style add_help (blank fs)).2 = Ok tt).
Proof.
  split; [|split; [|split; [|split]]].
  - intros options st. by destruct options.
  - intros s st. done.
  - intros xs ys x st Hx.
    unfold append_write_config_exclude. munfold.
    by rewrite !foldl_exclude_one_skip.
  - done.
  - intros fs conf_path indent flow_style add_help. split; [|done].
    unfold init, load_config, load_configfile, append_write_config_exclude.
    munfold. simpl.
    destruct (nonempty_str conf_path) as [p|]; simpl; [|done].
    destruct (exists_ fs p); simpl; [|done].
    destruct (read_config fs p INI_SECTION TOML_SECTION) as [data|e]; simpl; [|done].
    by destruct (update_from_dict ∅ data).
Qed.

(** *** The exclusion filter of [dict_to_string] *)

Lemma py_contains_collection (excl : pyval) (k : string) :
  collection excl → py_contains excl k = Ok (excluded excl k).
Proof. by destruct excl. Qed.

Lemma skim_foldl (excl : pyval) (xs : list (string * pyval)) (d0 : gmap string pyval) :
  collection excl →
  foldl (λ acc x,
           d ← acc;
           c ← (b ← py_contains excl x.1; Ok (negb b));
           if c : bool then p ← Ok x; Ok (<[p.1 := p.2]> d) else Ok d)
        (Ok d0) xs
  = Ok (foldl (λ d x, if excluded excl x.1 then d else <[x.1 := x.2]> d) d0 xs).
Proof.
  intros Hc. revert d0. induction xs as [|x xs IH]; intros d0; [done|].
  simpl. munfold. rewrite py_contains_collection by done.
  destruct (excluded excl x.1); simpl; apply IH.
Qed.

Lemma foldl_insert_unless_lookup (ex : string → bool)
    (xs : list (string * pyval)) (d0 : gmap string pyval) (k : string) :
  NoDup xs.*1 →
  foldl (λ d x, if ex x.1 then d else <[x.1 := x.2]> d) d0 xs !! k
  = match (list_to_map xs : gmap string pyval) !! k with
    | Some v => if ex k then d0 !! k else Some v
    | None => d0 !! k
    end.
Proof.
  revert d0. induction xs as [|[k' v'] xs IH]; intros d0 Hnd; [done|].
  apply NoDup_cons in Hnd as [Hk' Hnd]. simpl. rewrite IH by done.
  destruct (decide (k' = k)) as [->|Hne].
  - rewrite lookup_insert_eq.
    rewrite (not_elem_of_list_to_map_1 xs k) by done.
    destruct (ex k); [done|]. by rewrite lookup_insert_eq.
  - rewrite lookup_insert_ne by done.
    destruct (ex k'); [done|]. by rewrite lookup_insert_ne.
Qed.

(** the filter, as a map *)
Lemma skim_collection (data : gmap string pyval) (excl : pyval) :
  collection excl →
  skim data excl = Ok (filter (λ kv, excluded excl kv.1 = false) data).
Proof.
  intros Hc. unfold skim, dict_comp. rewrite skim_foldl by done. f_equal.
  apply map_eq. intros k.
  rewrite foldl_insert_unless_lookup by apply NoDup_fst_map_to_list.
  rewrite list_to_map_to_list, lookup_empty.
  destruct (data !! k) as [v|] eqn:Hk.
  - destruct (excluded excl k) eqn:He.
    + symmetry. apply map_lookup_filter_None. right. intros v' _. simpl. congruence.
    + symmetry. by apply map_lookup_filter_Some.
  - symmetry. apply map_lookup_filter_None. by left.
Qed.

Lemma skim_lacks_excluded (data d : gmap string pyval) (excl : pyval) (k : string) :
  collection excl → excluded excl k = true →
  skim data excl = Ok d → d !! k = None.
Proof.
  intros Hc He. rewrite skim_collection by done. intros [= <-].
  apply map_lookup_filter_None. right. intros v _. simpl. congruence.
Qed.

(** the filter does not look at an excluded key *)
Lemma skim_agree (data1 data2 : gmap string pyval) (excl : pyval) (k : string) :
  collection excl → excluded excl k = true →
  delete k data1 = delete k data2 →
  skim data1 excl = skim data2 excl.
Proof.
  intros Hc He Hd. rewrite !skim_collection by done. f_equal.
  apply map_eq. intros j. rewrite !map_lookup_filter.
  destruct (decide (j = k)) as [->|Hne].
  - destruct (data1 !! k), (data2 !! k); simpl; try done;
      repeat case_guard; simpl in *; congruence.
  - assert (data1 !! j = data2 !! j) as ->; [|done].
    rewrite <- (lookup_delete_ne data1 k j), <- (lookup_delete_ne data2 k j) by done.
    by rewrite Hd.
Qed.

(** *** Registered names stay registered *)

Section Keeps.
Variable k : string.

Local Abbreviation keeps := (keeps k).

Lemma keeps_ret {A} (a : A) : keeps (ret a).
Proof. by intros st. Qed.

Lemma keeps_raise {A} (e : exn) : keeps (raise (A := A) e).
Proof. by intros st. Qed.

Lemma keeps_lift {A} (r : result A) : keeps (lift r).
Proof. by intros st. Qed.

Lemma keeps_get : keeps get.
Proof. by intros st. Qed.

Lemma keeps_bind {A B} (m : M A) (f : A → M B) :
  keeps m → (∀ a, keeps (f a)) → keeps (m ≫= f).
Proof.
  intros Hm Hf st Hk. specialize (Hm st Hk). munfold.
  destruct (m st) as [st' [a|e]]; simpl in *; [by apply Hf|done].
Qed.

Lemma keeps_modify (f : state → state) :
  (∀ st, k ∈ write_config_exclude_default st → k ∈ write_config_exclude_default (f st)) →
  keeps (modify f).
Proof. intros Hf st Hk. by apply Hf. Qed.

Lemma keeps_fs_op (f : gmap string node → result (gmap string node)) : keeps (fs_op f).
Proof. intros st Hk. unfold fs_op. by destruct (f (files st)). Qed.

Lemma keeps_for_each {A} (xs : list A) (body : A → M unit) :
  (∀ x, keeps (body x)) → keeps (for_each xs body).
Proof.
  intros Hb. induction xs as [|x xs IH]; simpl; [apply keeps_ret|].
  apply keeps_bind; [apply Hb|by intros _].
Qed.

Lemma keeps_append (options : pyval) : keeps (append_write_config_exclude options).
Proof. intros st Hk. simpl. by apply foldl_exclude_one_grows. Qed.

Ltac keeps_step :=
  first
    [ apply keeps_ret | apply keeps_raise | apply keeps_lift | apply keeps_get
    | apply keeps_fs_op | apply keeps_append
    | apply keeps_modify; by intros ?
    | apply keeps_for_each; intros ?
    | apply keeps_bind; [|intros ?]
    | match goal with
      | |- keeps (match ?x with _ => _ end) => destruct x
      end ].

Lemma keeps_write_configfile f_path data excl f_mode mk_dir d_mode i f ini toml :
  keeps (write_configfile f_path data excl f_mode mk_dir d_mode i f ini toml).
Proof. unfold write_configfile. repeat keeps_step. Qed.

Lemma keeps_write_config f_path excl f_mode mk_dir d_mode :
  keeps (write_config f_path excl f_mode mk_dir d_mode).
Proof.
  unfold write_config. repeat keeps_step; try apply keeps_write_configfile.
Qed.

Lemma keeps_add_argument cargs kd dest_kw dflt :
  keeps (add_argument cargs kd dest_kw dflt).
Proof. unfold add_argument. repeat keeps_step. Qed.

Lemma keeps_exclude_own opt_key : keeps (exclude_own opt_key).
Proof. unfold exclude_own. repeat keeps_step. Qed.

Lemma keeps_add_argument_flag name a s l kw :
  keeps (add_argument_flag name a s l kw).
Proof.
  unfold add_argument_flag. repeat keeps_step;
    try first [apply keeps_add_argument | apply keeps_exclude_own].
Qed.

Lemma keeps_load_config conf_path verbose : keeps (load_config conf_path verbose).
Proof. unfold load_config, load_configfile. repeat keeps_step. Qed.

Lemma keeps_help_action : keeps help_action.
Proof. unfold help_action. repeat keeps_step. Qed.

Lemma keeps_take_action a v : keeps (take_action a v).
Proof.
  unfold take_action, setattr, ConfigActionExtd_call, parser_error.
  repeat keeps_step.
Qed.

Lemma keeps_parse_args args action_help : keeps (parse_args args action_help).
Proof.
  unfold parse_args, super_parse_args, parser_error.
  repeat keeps_step; try first [apply keeps_take_action | apply keeps_help_action].
Qed.

Lemma keeps_run_call (c : call) : keeps (run_call c).
Proof.
  destruct c; simpl.
  - apply keeps_append.
  - apply keeps_add_argument.
  - apply keeps_add_argument_flag.
  - apply keeps_add_argument_flag.
  - apply keeps_add_argument_flag.
  - unfold add_argument_config. repeat keeps_step;
      try first [apply keeps_add_argument | apply keeps_exclude_own].
  - unfold add_argument_save_config. repeat keeps_step;
      try first [apply keeps_add_argument | apply keeps_exclude_own].
  - apply keeps_load_config.
  - apply keeps_bind; [apply keeps_parse_args|intros; apply keeps_ret].
  - unfold save_config_action. repeat keeps_step; try apply keeps_write_config.
  - apply keeps_write_config.
  - unfold args_to_string. repeat keeps_step.
  - unfold skimmed_args_to_string. repeat keeps_step.
Qed.

Lemma keeps_exec_all (cs : list call) (st : state) :
  k ∈ write_config_exclude_default st →
  k ∈ write_config_exclude_default (exec_all st cs).
Proof.
  revert st. induction cs as [|c cs IH]; intros st Hk; [done|].
  simpl. apply IH. by apply keeps_run_call.
Qed.

End Keeps.

(** *** Saving honours the registry *)

Lemma list_concat_excludes (l : list string) (r excl : pyval) (k : string) :
  list_concat l r = Ok excl →
  collection excl ∧ (k ∈ l → excluded excl k = true).
Proof.
  destruct r; try done. intros [= <-]. split; [done|]. intros Hk. simpl.
  apply existsb_exists. exists (PStr k). split; [|by apply bool_decide_eq_true].
  apply in_or_app. left. apply list_elem_of_In, list_elem_of_fmap. eauto.
Qed.

(** what [dict_to_string] returns is settled by the filtered mapping *)
Lemma dict_to_string_skim (data1 data2 : gmap string pyval) (excl : pyval)
    (fmt : string) (i f : pyval) (ini : string) (enc : pyval) (toml : string) :
  skim data1 excl = skim data2 excl →
  dict_to_string data1 excl fmt i f ini enc toml
  = dict_to_string data2 excl fmt i f ini enc toml.
Proof. intros H. unfold dict_to_string. by rewrite H. Qed.

Lemma outcome_bind {A B} (m1 m2 : M A) (f1 f2 : A → M B) (s1 s2 : state) :
  outcome (m1 s1) = outcome (m2 s2) →
  (∀ a t1 t2, files t1 = files t2 → outcome (f1 a t1) = outcome (f2 a t2)) →
  outcome ((m1 ≫= f1) s1) = outcome ((m2 ≫= f2) s2).
Proof.
  unfold outcome. munfold. intros Hm Hf.
  destruct (m1 s1) as [t1 [a1|e1]], (m2 s2) as [t2 [a2|e2]];
    simpl in *; simplify_eq; try done.
  - by apply Hf.
  - congruence.
Qed.

Lemma outcome_fs_op (g : gmap string node → result (gmap string node)) (s1 s2 : state) :
  files s1 = files s2 → outcome (fs_op g s1) = outcome (fs_op g s2).
Proof.
  intros Hf. unfold outcome, fs_op. rewrite Hf.
  destruct (g (files s2)); simpl; [done|by rewrite Hf].
Qed.

Lemma outcome_pure {A} (r : result A) (s1 s2 : state) :
  files s1 = files s2 → outcome (lift r s1) = outcome (lift r s2).
Proof. intros Hf. unfold outcome, lift. simpl. by rewrite Hf. Qed.

(** what [write_configfile] does to the files is settled by the files
    and by the filtered mapping *)
Lemma write_configfile_outcome (st1 st2 : state) (f_path : pyval)
    (data1 data2 : gmap string pyval) (excl : pyval) (f_mode : Z) (mk_dir : bool)
    (d_mode : Z) (i f : pyval) (ini toml : string) :
  files st1 = files st2 →
  skim data1 excl = skim data2 excl →
  outcome (write_configfile f_path data1 excl f_mode mk_dir d_mode i f ini toml st1)
  = outcome (write_configfile f_path data2 excl f_mode mk_dir d_mode i f ini toml st2).
Proof.
  intros Hf Hs. unfold write_configfile.
  destruct f_path as [| | |p| | | | |]; try by apply (outcome_pure (Ok tt)).
  destruct (decide (p = "")); [by apply (outcome_pure (Ok tt))|].
  apply outcome_bind.
  { destruct mk_dir; [|by apply (outcome_pure (Ok tt))].
    destruct (decide (OsPath.dirname p = "")); [by apply (outcome_pure (Ok tt))|].
    by apply outcome_fs_op. }
  intros _ t1 t2 Ht. destruct (OsPath.splitext p) as [bn0 ext].
  rewrite (dict_to_string_skim data1 data2 excl _ i f ini PNone toml Hs).
  apply outcome_bind; [by apply outcome_pure|].
  intros content u1 u2 Hu.
  apply outcome_bind; [by apply outcome_fs_op|].
  intros _ v1 v2 Hv. by apply outcome_fs_op.
Qed.


(** *** [save_config_action] *)

(** C8. [save_config_action] passes the parser object where
    [write_config] expects the path, and [write_configfile] returns at
    once for a path that is not a string: whatever the namespace holds
    for the save-config option, the call leaves the files, and the whole
    state, as they were. *)
Theorem save_config_action_writes_nothing (st : state) (exclude_keys : pyval)
    (f_mode : Z) (mk_dir : bool) (d_mode : Z) :
  (save_config_action exclude_keys f_mode mk_dir d_mode st).1 = st.
Proof.
  unfold save_config_action, write_config, write_configfile. munfold. simpl.
  destruct (ns_getitem (option_key_alist st) "save_configfile") as [key|e]; [|done].
  simpl. destruct (getitem (namespace st) key) as [save_path|e]; [|done].
  simpl. destruct (nonempty_str save_path); [|done].
  simpl. by destruct (list_concat _ _).
Qed.

(** *** [add_argument_config] and [ConfigActionExtd] *)

(** what the action does when [argparse] meets its option: a file that
    exists is decoded and merged at once, a missing one is a usage error
    with exit status 2 *)
Lemma ConfigActionExtd_call_spec (st : state) (values : string) :
  ConfigActionExtd_call values st
  = if exists_ (files st) values
    then match read_config (files st) values INI_SECTION TOML_SECTION
                 ≫= update_from_dict (namespace st) with
         | Ok ns => (set_namespace ns st, Ok tt)
         | Raise e => (st, Raise e)
         end
    else (log (UsageError ("Config file " +:+ values +:+ " not found.")) st,
          Raise (SystemExit 2)).
Proof.
  unfold ConfigActionExtd_call, parser_error. munfold. simpl.
  destruct (exists_ (files st) values); [|done].
  destruct (read_config _ _ _ _) as [data|e]; simpl; [|done].
  by destruct (update_from_dict _ _).
Qed.

(** C6. [add_argument_config] looks up [ConfigActionExt] in the class,
    which binds [ConfigActionExtd]: with its default option strings the
    call raises [AttributeError] after it has stored the option key, and
    with no arguments at all does it register an action, so that no
    option of the parser runs [ConfigActionExtd]. *)
Theorem add_argument_config_registers_nothing :
  (∀ st : state,
     add_argument_config (PStr "-C") (PStr "--config")
       {| kw_dest := PNone; kw_action := None |} st
     = (set_option_key "configfile" (PStr "config") st,
        Raise (AttributeError "ConfigActionExt")))
  ∧ (∀ (short_opt long_opt : pyval) (kw : kwds) (st : state),
       actions (add_argument_config short_opt long_opt kw st).1 = actions st)
  ∧ class_getattr "ConfigActionExtd" = Ok "ConfigActionExtd"
  ∧ class_getattr "ConfigActionExt" = Raise (AttributeError "ConfigActionExt").
Proof.
  split; [done|]. split; [|done].
  intros short_opt long_opt kw st. unfold add_argument_config.
  destruct (list_opt_arg short_opt long_opt (kw_dest kw)) as [opt_key cargs].
  munfold. simpl. destruct (decide (cargs = [])); simpl; [|done].
  unfold exclude_own. by destruct (nonempty_str opt_key).
Qed.

(** *** Reading *)

Lemma read_config_unfold (fs : gmap string node) (p ini_section toml_section : string) :
  read_config fs p ini_section toml_section
  = (content ← read_text fs p;
     let bn := format_name p in
     if Str.endswith bn ".json" then json_loads content
     else if Str.endswith bn ".yaml" || Str.endswith bn ".yml" then
       yaml_safe_load content
     else if Str.endswith bn ".ini" then
       config ← cp_read_string cp_new content;
       d ← dict_comp (cp_sections config)
             (λ s, Ok (bool_decide (s = ini_section)))
             (λ s, items ← cp_items config s; Ok (s, PDict (PStr <$> items)));
       Ok (PDict d)
     else if Str.endswith bn ".toml" then
       config ← toml_loads content;
       d ← dict_comp (map_to_list config)
             (λ s, Ok (item_eq_str s toml_section))
             (λ s, Raise (AttributeError "items"));
       Ok (PDict d)
     else Raise (ValueError "Unsupported config file format")).
Proof.
  unfold read_config, read_text, format_name.
  by destruct (OsPath.splitext p) as [bn0 ext].
Qed.

Lemma endswith_toml_only (s : string) :
  Str.endswith s ".toml" = true →
  Str.endswith s ".json" = false ∧ Str.endswith s ".yaml" = false
  ∧ Str.endswith s ".yml" = false ∧ Str.endswith s ".ini" = false.
Proof.
  unfold Str.endswith.
  change (Str.rev ".toml") with "lmot."; change (Str.rev ".json") with "nosj.";
  change (Str.rev ".yaml") with "lmay."; change (Str.rev ".yml") with "lmy.";
  change (Str.rev ".ini") with "ini.".
  destruct (Str.rev s) as [|c1 [|c2 [|c3 r]]]; simpl; try done;
    repeat case_decide; simplify_eq; done.
Qed.

(** no item of a TOML document passes the filter of the comprehension *)
Lemma toml_comprehension_empty (xs : list (string * pyval)) (toml_section : string) :
  dict_comp xs (λ s, Ok (item_eq_str s toml_section))
    (λ s, Raise (AttributeError "items")) = Ok ∅.
Proof.
  unfold dict_comp. generalize (∅ : gmap string pyval).
  induction xs as [|x xs IH]; intros d; [done|]. simpl. apply IH.
Qed.

(** C5. For a path recognised as TOML whose text [toml.loads] reads as
    some document, whatever tables it has, [read_config] returns the
    empty mapping: the table named by [toml_section] is not in the
    result. *)
Theorem toml_read_returns_empty (fs : gmap string node) (p ini_section toml_section : string)
    (content : text) (config : gmap string pyval) :
  read_text fs p = Ok content →
  Str.endswith (format_name p) ".toml" = true →
  toml_loads content = Ok config →
  read_config fs p ini_section toml_section = Ok (PDict ∅).
Proof.
  intros Hr Hp Hl. rewrite read_config_unfold, Hr. simpl.
  destruct (endswith_toml_only _ Hp) as (-> & -> & -> & ->). simpl.
  rewrite Hp, Hl. simpl. munfold. by rewrite toml_comprehension_empty.
Qed.


(** *** Precedence of the command line *)

Lemma update_from_dict_lookup (ns D : gmap string pyval) (k : string) :
  map_fold (λ key value ns', <[key := value]> ns') ns D !! k
  = match D !! k with Some v => Some v | None => ns !! k end.
Proof.
  apply (map_fold_weak_ind
           (λ r D, r !! k = match D !! k with Some v => Some v | None => ns !! k end)).
  - by rewrite lookup_empty.
  - intros i x m r Hi IH. destruct (decide (i = k)) as [->|Hne].
    + by rewrite !lookup_insert_eq.
    + by rewrite !lookup_insert_ne.
Qed.

Lemma set_defaults_keeps (acts : list action) (ns : gmap string pyval)
    (k : string) (v : pyval) :
  ns !! k = Some v → set_defaults acts ns !! k = Some v.
Proof.
  unfold set_defaults. revert ns.
  induction acts as [|a acts IH]; intros ns Hk; [done|].
  simpl. apply IH. destruct (act_default a) as [d|]; [|done].
  destruct (ns !! dest a) eqn:Hd; [done|].
  rewrite lookup_insert_ne; [done|]. intros Heq. rewrite Heq in Hd. congruence.
Qed.

Lemma set_namespace_twice (ns1 ns2 : gmap string pyval) (st : state) :
  set_namespace ns1 (set_namespace ns2 st) = set_namespace ns1 st.
Proof. done. Qed.

(** a command line of storing options is parsed to the end and makes
    its assignments in order *)
Lemma for_each_assignments (acts : list action) (args : list occurrence) (st : state) :
  actions st = acts →
  Forall (λ o, is_Some (assignment acts o)) args →
  for_each args (λ o,
    st ← get;
    match filter (λ a, bool_decide (occ_option o ∈ option_strings a)) (actions st) with
    | a :: _ => take_action a (occ_value o)
    | [] => parser_error "unrecognized arguments"
    end) st
  = (set_namespace (assign_all acts args (namespace st)) st, Ok tt).
Proof.
  intros Hacts Hall. revert st Hacts.
  induction Hall as [|o args [[k v] Ho] Hall IH]; intros st Hacts.
  { by destruct st. }
  simpl. munfold. simpl. rewrite Hacts, Ho.
  unfold assignment in Ho.
  destruct (filter _ acts) as [|a l]; [done|].
  assert (Hstep : take_action a (occ_value o) st
                  = (set_namespace (<[k := v]> (namespace st)) st, Ok tt)).
  { unfold take_action, setattr.
    destruct (kind a), (occ_value o); simplify_eq; done. }
  rewrite Hstep. munfold. rewrite IH by done. by rewrite set_namespace_twice.
Qed.

Lemma assign_all_lookup (acts : list action) (args : list occurrence)
    (ns : gmap string pyval) (k : string) :
  assign_all acts args ns !! k
  = match cli_value acts args k with
    | Some v => Some v
    | None => ns !! k
    end.
Proof.
  unfold assign_all, cli_value.
  induction args as [|o args IH] using rev_ind; [done|].
  rewrite !foldl_app. simpl.
  destruct (assignment acts o) as [[k' v]|]; [|done].
  destruct (decide (k' = k)) as [->|Hne].
  - by rewrite lookup_insert_eq.
  - by rewrite lookup_insert_ne.
Qed.

Lemma help_action_namespace (st : state) :
  namespace (help_action st).1 = namespace st.
Proof.
  unfold help_action. munfold. simpl.
  destruct (ns_getitem (option_key_alist st) "help") as [key|e]; [|done].
  simpl. destruct key as [| | |s| | | | |]; simpl; try done.
  unfold ns_getitem. destruct (namespace st !! s) as [v|]; simpl; [|done].
  by destruct (truthy v).
Qed.


(** *** Names and extensions *)

Lemma rev_onto_append (a b acc : string) :
  Str.rev_onto (a +:+ b) acc = Str.rev_onto b (Str.rev_onto a acc).
Proof. revert acc. induction a as [|c a IH]; intros acc; simpl; [done|apply IH]. Qed.

Lemma rev_onto_acc (s acc t : string) :
  Str.rev_onto s (acc +:+ t) = Str.rev_onto s acc +:+ t.
Proof. revert acc. induction s as [|c s IH]; intros acc; simpl; [done|apply (IH (String c acc))]. Qed.

Lemma rev_append (a b : string) : Str.rev (a +:+ b) = Str.rev b +:+ Str.rev a.
Proof.
  unfold Str.rev. rewrite rev_onto_append.
  change (Str.rev_onto a "") with ("" +:+ Str.rev_onto a "").
  apply rev_onto_acc.
Qed.

Lemma upto_from (n : nat) (p : string) : Str.upto n p +:+ Str.from n p = p.
Proof.
  revert p. induction n as [|n IH]; intros p; [done|].
  destruct p as [|c p]; [done|].
  change (String c (Str.upto n p +:+ Str.from n p) = String c p). by rewrite IH.
Qed.

(** the reverse of a tail of [p] starts the reverse of [p] *)
Lemma rev_from (n : nat) (p : string) :
  Str.rev p = Str.rev (Str.from n p) +:+ Str.rev (Str.upto n p).
Proof. rewrite <- rev_append. by rewrite upto_from. Qed.

Lemma splitext_ext (p : string) :
  (OsPath.splitext p).2 = "" ∨ ∃ n, (OsPath.splitext p).2 = Str.from n p.
Proof.
  unfold OsPath.splitext.
  destruct (_ && _); simpl; [right; by eexists|by left].
Qed.

(** a name that ends in the extension of a format is not read through a
    decompressor *)
Lemma format_extension_not_compressed (p e : string) :
  e ∈ [".json"; ".yaml"; ".yml"; ".ini"; ".toml"] →
  Str.endswith p e = true →
  bool_decide (Str.lower (OsPath.splitext p).2 ∈ COMPRESS_EXT) = false.
Proof.
  intros He Hp. apply bool_decide_eq_false. intros Hc.
  destruct (splitext_ext p) as [Hx|[n Hx]]; rewrite Hx in Hc.
  { unfold COMPRESS_EXT in Hc. simpl in Hc. set_solver. }
  unfold Str.endswith in Hp. rewrite (rev_from n p) in Hp.
  destruct (Str.from n p) as [|c1 [|c2 [|c3 [|c4 [|c5 x]]]]];
    unfold COMPRESS_EXT in Hc; simpl in Hc;
    repeat (apply elem_of_cons in Hc as [Hc|Hc]; [simplify_eq|]);
    try (by apply elem_of_nil in Hc).
  all: unfold Str.rev in Hp; simpl in Hp.
  all: repeat (apply elem_of_cons in He as [->|He]);
    try (by apply elem_of_nil in He); simpl in Hp;
    repeat case_decide; simplify_eq; try done.
Qed.

Lemma endswith_ini_only (s : string) :
  Str.endswith s ".ini" = true →
  Str.endswith s ".json" = false ∧ Str.endswith s ".yaml" = false
  ∧ Str.endswith s ".yml" = false.
Proof.
  unfold Str.endswith.
  change (Str.rev ".ini") with "ini."; change (Str.rev ".json") with "nosj.";
  change (Str.rev ".yaml") with "lmay."; change (Str.rev ".yml") with "lmy.".
  destruct (Str.rev s) as [|c1 [|c2 [|c3 r]]]; simpl; try done;
    repeat case_decide; simplify_eq; done.
Qed.

Lemma endswith_yaml_not_json (s : string) :
  Str.endswith s ".yaml" = true ∨ Str.endswith s ".yml" = true →
  Str.endswith s ".json" = false.
Proof.
  unfold Str.endswith.
  change (Str.rev ".json") with "nosj.";
  change (Str.rev ".yaml") with "lmay."; change (Str.rev ".yml") with "lmy.".
  destruct (Str.rev s) as [|c1 [|c2 [|c3 r]]]; simpl; intros [?|?]; try done;
    repeat case_decide; simplify_eq; done.
Qed.

(** a plain file whose name ends in the extension of a format is read
    as it is *)
Lemma read_text_plain (fs : gmap string node) (p e : string) (content : text) (m : Z) :
  e ∈ [".json"; ".yaml"; ".yml"; ".ini"; ".toml"] →
  Str.endswith p e = true →
  fs !! p = Some (File Plain content m) →
  read_text fs p = Ok content ∧ format_name p = p.
Proof.
  intros He Hp Hf. unfold read_text, format_name.
  pose proof (format_extension_not_compressed p e He Hp) as Hn.
  destruct (OsPath.splitext p) as [bn0 ext]. simpl in *. rewrite Hn.
  split; [|done]. unfold read_through.
  destruct (decide (p = "")) as [->|_].
  { repeat (apply elem_of_cons in He as [->|He]); try done. by apply elem_of_nil in He. }
  rewrite Hf. by destruct (decide (Plain = Plain)).
Qed.

Lemma startswith_append (a b : string) : Str.startswith (a +:+ b) a = true.
Proof.
  induction a as [|c a IH]; [by destruct b|].
  change (String c a +:+ b) with (String c (a +:+ b)). simpl.
  by destruct (decide (c = c)).
Qed.

(** a name whose extension, as [os.path.splitext] finds it, is that of a
    format is recognised by [read_config] *)
Lemma known_extension_recognised (name e : string) :
  e ∈ [".json"; ".yaml"; ".yml"; ".ini"; ".toml"] →
  (OsPath.splitext name).2 = e →
  known_format name = true.
Proof.
  intros He Hx.
  assert (Hend : Str.endswith name e = true).
  { destruct (splitext_ext name) as [H0|[n Hn]].
    - rewrite H0 in Hx. subst e. set_solver.
    - rewrite Hn in Hx. subst e. unfold Str.endswith.
      rewrite (rev_from n name). apply startswith_append. }
  unfold known_format. apply existsb_exists. exists e. split; [|done].
  by apply list_elem_of_In.
Qed.

(** *** Round trips *)

Lemma skim_nothing (M : gmap string pyval) : skim M (PList []) = Ok M.
Proof.
  rewrite skim_collection by done. f_equal. by apply map_filter_id.
Qed.


(** *** Selecting a section *)

Lemma dict_comp_raise {A} (xs : list A) (cond : A → result bool)
    (kv : A → result (string * pyval)) (e : exn) :
  foldl (λ acc x,
           d ← acc;
           c ← cond x;
           if c : bool then p ← kv x; Ok (<[p.1 := p.2]> d) else Ok d)
        (Raise e : result (gmap string pyval)) xs = Raise e.
Proof. induction xs as [|x xs IH]; [done|]. simpl. apply IH. Qed.

(** a comprehension that keeps the one element equal to [S] *)
Lemma dict_comp_select (xs : list string) (S : string)
    (kv : string → result (string * pyval)) :
  NoDup xs →
  dict_comp xs (λ s, Ok (bool_decide (s = S))) kv
  = if bool_decide (S ∈ xs) then p ← kv S; Ok {[ p.1 := p.2 ]} else Ok ∅.
Proof.
  unfold dict_comp.
  cut (∀ d0 : gmap string pyval, NoDup xs →
         foldl (λ acc x,
                  d ← acc;
                  c ← Ok (bool_decide (x = S));
                  if c : bool then p ← kv x; Ok (<[p.1 := p.2]> d) else Ok d)
               (Ok d0) xs
         = if bool_decide (S ∈ xs) then p ← kv S; Ok (<[p.1 := p.2]> d0) else Ok d0).
  { intros H Hnd. by rewrite H. }
  match goal with |- context [foldl ?f _ _] => set (F := f) end.
  assert (HF : ∀ d0 x, F (Ok d0) x
            = if bool_decide (x = S) then p ← kv x; Ok (<[p.1 := p.2]> d0) else Ok d0)
    by done.
  assert (HR : ∀ e ys, foldl F (Raise e) ys = Raise e)
    by (intros e ys; apply dict_comp_raise).
  clearbody F.
  induction xs as [|x xs IH]; intros d0 Hnd; [done|].
  apply NoDup_cons in Hnd as [Hx Hnd]. simpl. rewrite HF.
  destruct (decide (x = S)) as [->|Hne].
  - rewrite bool_decide_eq_true_2 by done.
    rewrite (bool_decide_eq_true_2 (S ∈ S :: xs)) by set_solver.
    destruct (kv S) as [q|e]; simpl; [|apply HR].
    rewrite IH by done. by rewrite bool_decide_eq_false_2.
  - rewrite bool_decide_eq_false_2 by done. rewrite IH by done.
    destruct (decide (S ∈ xs)).
    + by rewrite !bool_decide_eq_true_2 by set_solver.
    + by rewrite !bool_decide_eq_false_2 by set_solver.
Qed.

End General.

(** ** Runs on the reference libraries *)

Section Reference.
#[local] Existing Instance ref_libs.

Lemma ref_jsonable_flat (d : gmap string pyval) :
  flat d → map_fold (λ _ x acc, Ref.jsonable x && acc) true d = true.
Proof.
  apply (map_fold_weak_ind (λ r m, flat m → r = true)); [done|].
  intros k v m r Hk IH Hf. apply map_Forall_insert in Hf as [Hv Hm]; [|done].
  rewrite IH by done. by destruct v.
Qed.

Lemma ref_yaml_safe_flat (d : gmap string pyval) :
  flat d → map_fold (λ _ x acc, Ref.yaml_safe x && acc) true d = true.
Proof.
  apply (map_fold_weak_ind (λ r m, flat m → r = true)); [done|].
  intros k v m r Hk IH Hf. apply map_Forall_insert in Hf as [Hv Hm]; [|done].
  rewrite IH by done. by destruct v.
Qed.

Lemma ref_json_value_flat (d : gmap string pyval) :
  flat d → Ref.json_value <$> d = d.
Proof.
  intros Hf. apply map_eq. intros k. rewrite lookup_fmap.
  destruct (d !! k) as [v|] eqn:Hk; [|done]. simpl.
  specialize (Hf k v Hk). by destruct v.
Qed.

(** the reference [json] reads back the flat mappings it writes *)
Lemma ref_json_law (d : gmap string pyval) (i : pyval) :
  flat d → ∃ t, json_dumps d i = Ok t ∧ json_loads t = Ok (PDict d).
Proof.
  intros Hf. simpl. rewrite ref_jsonable_flat by done.
  eexists. split; [done|]. simpl. by rewrite ref_json_value_flat.
Qed.

(** the reference [yaml] reads back the flat mappings it writes *)
Lemma ref_yaml_law (d : gmap string pyval) (f : pyval) :
  flat d → ∃ t, yaml_dump d f = Ok t ∧ yaml_safe_load t = Ok (PDict d).
Proof.
  intros Hf. simpl. eexists. split; [done|]. simpl.
  by rewrite ref_yaml_safe_flat.
Qed.

Lemma conf_flat : flat Demo.conf.
Proof.
  unfold Demo.conf. apply map_Forall_insert_2; [done|].
  by apply map_Forall_singleton.
Qed.



(** [sections()] lists the sections of the parser, each once *)
Lemma ref_sections_elem (c : Ref.parser) (S : string) :
  S ∈ cp_sections c ↔ is_Some (Ref.sections c !! S).
Proof.
  simpl. rewrite list_elem_of_fmap. split.
  - intros [[k v] [-> Hkv]]. apply elem_of_map_to_list in Hkv. by eexists.
  - intros [v Hv]. exists (S, v). split; [done|]. by apply elem_of_map_to_list.
Qed.




(** the TOML text with the tables [DEFAULT] and [other], read with the
    section [DEFAULT]: nothing of the table [DEFAULT] is returned *)
Lemma toml_read_returns_empty_witness :
  read_config Demo.fs "conf.toml" "DEFAULT" "DEFAULT" = Ok (PDict ∅).
Proof.
  apply (toml_read_returns_empty Demo.fs "conf.toml" "DEFAULT" "DEFAULT"
           Demo.toml_text
           (<["DEFAULT" := PDict {[ "a" := PInt 1 ]}]>
              {[ "other" := PDict {[ "b" := PInt 2 ]} ]})).
  - reflexivity.
  - reflexivity.
  - reflexivity.
Defined.



Lemma load_missing_config_is_noop_witness :
  load_config (PStr "") false Demo.fresh = (Demo.fresh, Ok tt)
  ∧ namespace (load_config (PStr "missing.json") true Demo.fresh).1
    = namespace Demo.fresh.
Proof.
  split.
  - exact (proj1 (proj2 (load_missing_config_is_noop Demo.fresh "" false
                           "DEFAULT" "DEFAULT" (or_introl eq_refl)))).
  - exact (proj2 (proj2 (load_missing_config_is_noop Demo.fresh "missing.json" true
                           "DEFAULT" "DEFAULT" (or_intror eq_refl)))).
Defined.


Lemma append_exclude_witness :
  append_write_config_exclude
    (PList [PStr "--dry-run"; PNone; PInt 3; PStr ""; PStr "-n"]) Demo.fresh
  = append_write_config_exclude (PList [PStr "--dry-run"; PStr "-n"]) Demo.fresh
  ∧ write_config_exclude_default
      (append_write_config_exclude (PList [PStr "--dry-run"; PStr "-n"]) Demo.fresh).1
    = ["dry_run"; "n"].
Proof.
  destruct append_exclude_never_raises_and_skips_invalid as (_ & _ & Hskip & _).
  split; [|reflexivity].
  etransitivity;
    [exact (proj1 (Hskip [PStr "--dry-run"] [PInt 3; PStr ""; PStr "-n"] PNone
                     Demo.fresh eq_refl))|].
  etransitivity;
    [exact (proj1 (Hskip [PStr "--dry-run"] [PStr ""; PStr "-n"] (PInt 3)
                     Demo.fresh eq_refl))|].
  exact (proj1 (Hskip [PStr "--dry-run"] [PStr "-n"] (PStr "")
                  Demo.fresh eq_refl)).
Defined.

(** *** The defects, run *)

(** the namespace asks for a save to [out.json]; [save_config_action]
    returns and no such file is there *)
Example save_config_action_run :
  let r := save_config_action (PList []) 420 true 493 Demo.with_secret in
  getitem (namespace Demo.with_secret) (PStr "save_config") = Ok (PStr "out.json")
  ∧ r.2 = Ok tt ∧ files r.1 !! "out.json" = None.
Proof. repeat split; reflexivity. Qed.

(** ... whereas [write_config] with that path writes the namespace
    without the registered names *)
Example write_config_run :
  let st := exec Demo.with_secret (CAppendExclude (PList [PStr "secret"; PStr "save_config"])) in
  let r := write_config (PStr "out.json") (PList []) 420 true 493 st in
  r.2 = Ok tt
  ∧ files r.1 !! "out.json" = Some (File Plain (Ref.Json (PDict Demo.conf)) 420).
Proof. split; reflexivity. Qed.

(** the facade call of the module's own main program *)
Example add_argument_config_run :
  (add_argument_config (PStr "-C") (PStr "--config")
     {| kw_dest := PNone; kw_action := None |} Demo.fresh).2
  = Raise (AttributeError "ConfigActionExt").
Proof. reflexivity. Qed.

(** a file named [.json] has no extension for [os.path.splitext]:
    [write_config] writes the [repr] into it, and [read_config] takes it
    for JSON *)
Example dotfile_run :
  let st := exec Demo.with_secret
              (CAppendExclude (PList [PStr "secret"; PStr "save_config"])) in
  let r := write_config (PStr ".json") (PList []) 420 true 493 st in
  OsPath.splitext ".json" = (".json", "")
  ∧ known_format (format_name ".json") = true
  ∧ files r.1 !! ".json" = Some (File Plain (Ref.Repr Demo.conf) 420)
  ∧ read_config (files r.1) ".json" "DEFAULT" "DEFAULT"
    = Raise (ParseError "JSONDecodeError").
Proof. repeat split; reflexivity. Qed.

(** the INI text read with the section [DEFAULT] *)
Example ini_read_default_run :
  read_config Demo.fs "conf.ini" "DEFAULT" "DEFAULT" = Ok (PDict ∅).
Proof. reflexivity. Qed.

(** a section other than [DEFAULT] cannot be written *)
Example ini_write_named_section_run :
  dict_to_string Demo.conf (PList []) "ini" (PInt 4) (PBool false)
    "profile" PNone "profile" = Raise (KeyError "profile").
Proof. reflexivity. Qed.

(** a configuration file named after the option wins over an option
    given before it *)
Example config_option_after_flag_run :
  let st := (add_argument ["-C"; "--config"] AConfig PNone (Some PNone) Demo.with_a).1 in
  let r := parse_args [Occ "--a" (Some (PInt 9)); Occ "-C" (Some (PStr "conf.json"))]
             false st in
  namespace r.1 !! "a" = Some (PInt 1).
Proof. reflexivity. Qed.

End Reference.

(** ** More proofs *)

Section Further.
Context `{L : Libs}.

(** *** What a method leaves in place *)

Section Within.
Context (R : relation state) `{!Reflexive R, !Transitive R}.

Lemma within_ret {A} (a : A) : within R (ret a).
Proof. intros st. simpl. reflexivity. Qed.

Lemma within_raise {A} (e : exn) : within R (raise (A := A) e).
Proof. intros st. simpl. reflexivity. Qed.

Lemma within_lift {A} (r : result A) : within R (lift r).
Proof. intros st. simpl. reflexivity. Qed.

Lemma within_get : within R get.
Proof. intros st. simpl. reflexivity. Qed.

Lemma within_bind {A B} (m : M A) (f : A → M B) :
  within R m → (∀ a, within R (f a)) → within R (m ≫= f).
Proof.
  intros Hm Hf st. specialize (Hm st). munfold.
  destruct (m st) as [st' [a|e]]; simpl in *; [|done].
  etransitivity; [exact Hm|apply Hf].
Qed.

Lemma within_modify (f : state → state) :
  (∀ st, R st (f st)) → within R (modify f).
Proof. intros Hf st. apply Hf. Qed.

Lemma within_fs_op (g : gmap string node → result (gmap string node)) :
  (∀ st fs', g (files st) = Ok fs' → R st (set_files fs' st)) →
  within R (fs_op g).
Proof.
  intros Hg st. unfold fs_op. destruct (g (files st)) eqn:Hgs; simpl.
  - by apply Hg.
  - reflexivity.
Qed.

Lemma within_for_each {A} (xs : list A) (body : A → M unit) :
  (∀ x, within R (body x)) → within R (for_each xs body).
Proof.
  intros Hb. induction xs as [|x xs IH]; simpl; [apply within_ret|].
  apply within_bind; [apply Hb|by intros _].
Qed.

End Within.

(** one step of a proof that a method stays within a relation; [prim]
    settles the changes of the state that the method makes itself *)
Ltac within_step prim :=
  lazymatch goal with
  | |- within ?R (match ?x with _ => _ end) => destruct x
  | |- within ?R _ =>
      first
        [ apply (within_ret R) | apply (within_raise R) | apply (within_lift R)
        | apply (within_get R)
        | apply (within_modify R); intros ?; prim
        | apply (within_fs_op R); intros ? ? ?; prim
        | apply (within_for_each R); intros ?
        | apply (within_bind R); [|intros ?] ]
  end.

Global Instance registry_grows_refl : Reflexive registry_grows.
Proof. intros st. by exists []. Qed.

Global Instance registry_grows_trans : Transitive registry_grows.
Proof.
  intros a b c [xs Hx] [ys Hy]. exists (xs ++ ys).
  by rewrite Hy, Hx, foldl_app.
Qed.

Ltac registry_prim := by (exists []).

Lemma registry_append (options : pyval) :
  within registry_grows (append_write_config_exclude options).
Proof. intros st. simpl. by eexists. Qed.

Lemma registry_run_call (c : call) : within registry_grows (run_call c).
Proof.
  destruct c; simpl;
    try unfold add_argument_help, add_argument_verbose, add_argument_quiet;
    unfold add_argument_flag, add_argument_config, add_argument_save_config,
      exclude_own, add_argument, load_config, load_configfile, parse_args,
      super_parse_args, help_action, take_action, ConfigActionExtd_call,
      parser_error, setattr, save_config_action, write_config, write_configfile,
      args_to_string, skimmed_args_to_string;
    repeat (first [apply registry_append | within_step registry_prim]).
Qed.

Lemma registry_exec_all (cs : list call) (st : state) :
  registry_grows st (exec_all st cs).
Proof.
  revert st. induction cs as [|c cs IH]; intros st; [reflexivity|].
  simpl. etransitivity; [apply registry_run_call|apply IH].
Qed.

(** *** Option names *)

Lemma replace_no_dash (s : string) : no_dash (Str.replace "-" "_" s).
Proof.
  unfold no_dash. induction s as [|c s IH]; [done|].
  simpl. rewrite IH.
  destruct (decide (c = "-"%char)) as [->|Hc].
  - by destruct (decide ("-"%char = "_"%char)).
  - by destruct (decide ("-"%char = c)).
Qed.

Lemma no_dash_startswith (s : string) :
  no_dash s → Str.startswith s "--" = false ∧ Str.startswith s "-" = false.
Proof.
  unfold no_dash. destruct s as [|c s]; [done|]. simpl.
  destruct (decide ("-"%char = c)); [by destruct s|done].
Qed.

Lemma no_dash_replace (s : string) : no_dash s → Str.replace "-" "_" s = s.
Proof.
  unfold no_dash. induction s as [|c s IH]; [done|]. simpl.
  destruct (decide ("-"%char = c)) as [<-|Hc]; [by destruct s|]. simpl.
  intros Hs. destruct (decide (c = "-"%char)); [congruence|].
  f_equal. by apply IH.
Qed.

Lemma optname_no_dash (x : string) : no_dash (optname x).
Proof. apply replace_no_dash. Qed.

Lemma optname_fixed (x : string) : no_dash x → optname x = x.
Proof.
  intros Hx. unfold optname.
  destruct (no_dash_startswith x Hx) as [-> ->]. by apply no_dash_replace.
Qed.

(** *** The exclusion list *)

Lemma exclude_one_nodup (l : list string) (x : pyval) :
  NoDup l → NoDup (exclude_one l x).
Proof.
  intros Hl. unfold exclude_one. destruct (nonempty_str x) as [s|]; [|done].
  case_bool_decide; [done|]. apply NoDup_app. repeat split; [done| |apply NoDup_singleton].
  intros y Hy Hy'. apply list_elem_of_singleton in Hy'. by subst.
Qed.

Lemma exclude_one_no_dash (l : list string) (x : pyval) :
  Forall no_dash l → Forall no_dash (exclude_one l x).
Proof.
  intros Hl. unfold exclude_one. destruct (nonempty_str x) as [s|]; [|done].
  case_bool_decide; [done|]. apply Forall_app. split; [done|].
  apply Forall_singleton, optname_no_dash.
Qed.

Lemma exclude_one_prefix (l : list string) (x : pyval) : l `prefix_of` exclude_one l x.
Proof.
  unfold exclude_one. destruct (nonempty_str x) as [s|]; [|done].
  case_bool_decide; [done|]. by apply prefix_app_r.
Qed.

Lemma foldl_exclude_one_inv (P : list string → Prop) (xs : list pyval) (l : list string) :
  (∀ l x, P l → P (exclude_one l x)) → P l → P (foldl exclude_one l xs).
Proof.
  intros HP. revert l. induction xs as [|x xs IH]; intros l Hl; [done|].
  simpl. apply IH. by apply HP.
Qed.

Lemma foldl_exclude_one_prefix (xs : list pyval) (l : list string) :
  l `prefix_of` foldl exclude_one l xs.
Proof.
  revert l. induction xs as [|x xs IH]; intros l; [done|].
  simpl. etransitivity; [apply exclude_one_prefix|apply IH].
Qed.

(** an element that has been through the loop is not registered again *)
Lemma exclude_one_seen (xs : list pyval) (l : list string) (x : pyval) :
  x ∈ xs → exclude_one (foldl exclude_one l xs) x = foldl exclude_one l xs.
Proof.
  revert l. induction xs as [|y xs IH]; intros l Hx; [by apply elem_of_nil in Hx|].
  apply elem_of_cons in Hx as [->|Hx]; [|by apply IH].
  simpl. destruct (nonempty_str y) as [s|] eqn:Hy; [|by apply exclude_one_skip].
  assert (Hin : optname s ∈ foldl exclude_one (exclude_one l y) xs).
  { apply foldl_exclude_one_grows. unfold exclude_one. rewrite Hy.
    case_bool_decide; [done|]. set_solver. }
  unfold exclude_one at 1. rewrite Hy. by rewrite bool_decide_eq_true_2.
Qed.

Lemma foldl_exclude_one_again (xs ys : list pyval) (l : list string) :
  ys ⊆ xs → foldl exclude_one (foldl exclude_one l xs) ys = foldl exclude_one l xs.
Proof.
  induction ys as [|y ys IH]; intros Hsub; [done|].
  simpl. rewrite exclude_one_seen by set_solver. apply IH. set_solver.
Qed.

(** X1. In every state that the constructor and any calls of the
    methods lead to, the exclusion list has no name twice, and each of
    its names is free of dashes and is its own option name. *)
Theorem registry_is_normalised (fs : gmap string node)
    (conf_path exclude_save indent flow_style : pyval) (add_help : bool)
    (cs : list call) :
  let st := exec_all (init conf_path exclude_save indent flow_style add_help (blank fs)).1 cs in
  NoDup (write_config_exclude_default st)
  ∧ Forall (λ n, no_dash n ∧ optname n = n) (write_config_exclude_default st).
Proof.
  intros st.
  assert (H0 : ∃ xs, write_config_exclude_default
                       (init conf_path exclude_save indent flow_style add_help (blank fs)).1
                     = foldl exclude_one [] xs).
  { unfold init, load_config, load_configfile, append_write_config_exclude.
    munfold. simpl.
    destruct (nonempty_str conf_path) as [p|]; simpl; [|by eexists].
    destruct (exists_ fs p); simpl; [|by eexists].
    destruct (read_config fs p INI_SECTION TOML_SECTION) as [data|e]; simpl;
      [|by exists []].
    destruct (update_from_dict ∅ data); simpl; [by eexists|by exists []]. }
  destruct H0 as [xs Hxs].
  destruct (registry_exec_all cs
              (init conf_path exclude_save indent flow_style add_help (blank fs)).1)
    as [ys Hys].
  fold st in Hys. rewrite Hys, Hxs, <- foldl_app.
  split.
  - apply foldl_exclude_one_inv; [apply exclude_one_nodup|apply NoDup_nil_2].
  - eapply Forall_impl.
    + apply (foldl_exclude_one_inv (Forall no_dash));
        [apply exclude_one_no_dash|apply Forall_nil_2].
    + intros n Hn. split; [done|by apply optname_fixed].
Qed.

(** X2. No call of a method removes or moves a registered name: the
    exclusion list before the call starts the list after it, whether
    the call returns or raises. *)
Theorem registry_only_grows_at_the_end (st : state) (cs : list call) :
  write_config_exclude_default st
    `prefix_of` write_config_exclude_default (exec_all st cs).
Proof.
  destruct (registry_exec_all cs st) as [xs ->]. apply foldl_exclude_one_prefix.
Qed.

(** X3. Registering the same names again changes nothing: after
    [append_write_config_exclude(options)], a second call with the same
    argument, or with any string among its elements, leaves the state as
    it is. *)
Theorem registration_is_idempotent (options : pyval) (st : state) :
  let st1 := (append_write_config_exclude options st).1 in
  (append_write_config_exclude options st1).1 = st1
  ∧ ∀ s, PStr s ∈ (match options with
                   | PList l | PTuple l | PSet l => l
                   | _ => [options]
                   end) →
         (append_write_config_exclude (PStr s) st1).1 = st1.
Proof.
  intros st1. unfold st1, append_write_config_exclude. simpl. split.
  - unfold set_exclude. simpl. by rewrite foldl_exclude_one_again.
  - intros s Hs. unfold set_exclude. simpl. by rewrite exclude_one_seen.
Qed.

(** *** The namespace *)

Global Instance namespace_grows_refl : Reflexive namespace_grows.
Proof. by intros st k. Qed.

Global Instance namespace_grows_trans : Transitive namespace_grows.
Proof. intros a b c Hab Hbc k Hk. by apply Hbc, Hab. Qed.

Lemma update_from_dict_union (ns D : gmap string pyval) :
  map_fold (λ key value ns', <[key := value]> ns') ns D = D ∪ ns.
Proof.
  apply map_eq. intros k. rewrite update_from_dict_lookup, lookup_union.
  by destruct (D !! k), (ns !! k).
Qed.

Lemma update_from_dict_grows (ns ns' : gmap string pyval) (data : pyval) (k : string) :
  update_from_dict ns data = Ok ns' → is_Some (ns !! k) → is_Some (ns' !! k).
Proof.
  destruct data; try done. simpl. intros [= <-] Hk.
  rewrite update_from_dict_union, lookup_union.
  destruct Hk as [v ->]. by destruct (d !! k); eexists.
Qed.

Ltac namespace_prim :=
  let k := fresh "k" in
  let Hk := fresh "Hk" in
  intros k Hk; simpl;
  first [ exact Hk
        | destruct Hk as [? Hk]; eexists; by apply set_defaults_keeps
        | by apply lookup_insert_is_Some'; right ].

Lemma namespace_load_configfile conf_path verbose ini toml :
  within namespace_grows (load_configfile conf_path verbose ini toml).
Proof.
  intros st k Hk. unfold load_configfile. munfold. simpl.
  destruct (nonempty_str conf_path) as [p|]; [|by destruct verbose].
  destruct (exists_ (files st) p); [|by destruct verbose].
  destruct (read_config _ _ _ _) as [data|e]; simpl; [|done].
  destruct (update_from_dict _ _) as [ns|e] eqn:Hu; simpl; [|done].
  by eapply update_from_dict_grows.
Qed.

Lemma namespace_ConfigActionExtd_call values :
  within namespace_grows (ConfigActionExtd_call values).
Proof.
  intros st k Hk. rewrite ConfigActionExtd_call_spec.
  destruct (exists_ (files st) values); [|done].
  destruct (read_config _ _ _ _) as [data|e]; simpl; [|done].
  destruct (update_from_dict _ _) as [ns|e] eqn:Hu; simpl; [|done].
  by eapply update_from_dict_grows.
Qed.

Lemma namespace_run_call (c : call) : within namespace_grows (run_call c).
Proof.
  destruct c; simpl;
    try unfold add_argument_help, add_argument_verbose, add_argument_quiet;
    unfold add_argument_flag, add_argument_config, add_argument_save_config,
      exclude_own, append_write_config_exclude, add_argument, load_config,
      parse_args, super_parse_args, help_action, take_action,
      parser_error, setattr, save_config_action, write_config, write_configfile,
      args_to_string, skimmed_args_to_string;
    repeat (first [ apply namespace_load_configfile
                  | apply namespace_ConfigActionExtd_call
                  | within_step namespace_prim ]).
Qed.


(** *** Parsing without a help option *)

Global Instance same_parser_refl : Reflexive same_parser.
Proof. by intros st. Qed.

Global Instance same_parser_trans : Transitive same_parser.
Proof.
  intros a b c (?&?&?&?&?&?) (?&?&?&?&?&?). repeat split; congruence.
Qed.

Ltac same_prim := by repeat split.

Lemma same_parser_super_parse_args args : within same_parser (super_parse_args args).
Proof.
  unfold super_parse_args, take_action, ConfigActionExtd_call, parser_error, setattr.
  repeat within_step same_prim.
Qed.

Global Instance same_help_key_refl : Reflexive same_help_key.
Proof. by intros st. Qed.

Global Instance same_help_key_trans : Transitive same_help_key.
Proof. intros a b c Hab Hbc. unfold same_help_key in *. congruence. Qed.

Ltac help_key_prim :=
  unfold same_help_key; simpl; first [done | by rewrite lookup_insert_ne].

Lemma same_help_key_run_call (c : call) :
  not_add_help c → within same_help_key (run_call c).
Proof.
  destruct c; simpl; try done; intros _;
    try unfold add_argument_verbose, add_argument_quiet;
    unfold add_argument_flag, add_argument_config, add_argument_save_config,
      exclude_own, append_write_config_exclude, add_argument, load_config,
      load_configfile, parse_args, super_parse_args, help_action, take_action,
      ConfigActionExtd_call, parser_error, setattr, save_config_action,
      write_config, write_configfile, args_to_string, skimmed_args_to_string;
    repeat within_step help_key_prim.
Qed.

Lemma init_no_help_key (fs : gmap string node)
    (conf_path exclude_save indent flow_style : pyval) (add_help : bool) :
  (init conf_path exclude_save indent flow_style add_help (blank fs)).2 = Ok tt →
  option_key_alist (init conf_path exclude_save indent flow_style add_help (blank fs)).1
    !! "help" = None.
Proof.
  unfold init, load_config, load_configfile, append_write_config_exclude.
  munfold. simpl.
  destruct (nonempty_str conf_path) as [p|]; simpl; [|done].
  destruct (exists_ fs p); simpl; [|done].
  destruct (read_config fs p INI_SECTION TOML_SECTION) as [data|e]; simpl; [|done].
  by destruct (update_from_dict ∅ data).
Qed.

(** X5. [parse_args] changes nothing of the parser but its namespace
    and its output.  On a parser whose [option_key_alist] has no
    [help], [parse_args] with [action_help] set never returns: when the
    command line itself is parsed to its end, the call raises
    [KeyError('help')].  Every parser that has been constructed and on
    which [add_argument_help] has not been called is such a parser,
    whatever other methods have been called on it. *)
Theorem parse_args_needs_the_help_option (st : state) (args : list occurrence) :
  (∀ action_help, same_parser st (parse_args args action_help st).1)
  ∧ (option_key_alist st !! "help" = None →
     raises (parse_args args true st).2
     ∧ ((super_parse_args args st).2 = Ok tt →
        (parse_args args true st).2 = Raise (KeyError "help")))
  ∧ (∀ fs conf_path exclude_save indent flow_style add_help cs,
       (init conf_path exclude_save indent flow_style add_help (blank fs)).2 = Ok tt →
       Forall not_add_help cs →
       st = exec_all (init conf_path exclude_save indent flow_style add_help
                        (blank fs)).1 cs →
       option_key_alist st !! "help" = None).
Proof.
  pose proof (same_parser_super_parse_args args st) as Hs.
  split; [|split].
  - intros action_help. unfold parse_args. munfold.
    destruct (super_parse_args args st) as [st' [[]|e]]; simpl in *; [|done].
    destruct action_help; simpl; [|done].
    assert (Hh : same_parser st' (help_action st').1).
    { unfold help_action. generalize st'. change (within same_parser help_action).
      unfold help_action. repeat within_step same_prim. }
    destruct (help_action st') as [st'' [[]|e]]; simpl in *;
      by etransitivity.
  - intros Hnone. unfold parse_args. munfold.
    destruct (super_parse_args args st) as [st' [[]|e]]; simpl in *; [|done].
    destruct Hs as (_ & Hk & _).
    unfold help_action, ns_getitem. munfold. simpl. rewrite Hk, Hnone. simpl.
    by split.
  - intros fs conf_path exclude_save indent flow_style add_help cs Hinit Hcs ->.
    clear Hs. apply init_no_help_key in Hinit. revert Hinit.
    generalize (init conf_path exclude_save indent flow_style add_help (blank fs)).1.
    induction Hcs as [|c cs Hc Hcs IH]; intros st0 H0; [done|].
    simpl. apply IH. unfold exec.
    by rewrite (same_help_key_run_call c Hc st0).
Qed.

(** *** The option strings and the key of a helper *)

Lemma nonempty_str_Some (v : pyval) (s : string) :
  nonempty_str v = Some s → v = PStr s ∧ s ≠ "".
Proof.
  destruct v; try done. simpl. destruct (decide (s0 = "")); [done|].
  by intros [= ->].
Qed.

Lemma short_option_string (so : string) :
  let o := if Str.startswith so "-" then Str.upto 2 so else "-" +:+ Str.upto 1 so in
  Str.startswith o "-" = true ∧ (Str.length o ≤ 2)%nat.
Proof.
  assert (Hd : ∀ c, Str.startswith (String "-" (String c "")) "-" = true).
  { intros c. simpl. by destruct (decide ("-"%char = "-"%char)). }
  destruct so as [|c [|c' so]]; cbv zeta.
  - split; [reflexivity|]. vm_compute. lia.
  - simpl. destruct (decide ("-"%char = c)) as [<-|Hc];
      (split; [reflexivity|vm_compute; lia]).
  - simpl. destruct (decide ("-"%char = c)) as [<-|Hc].
    + split; [apply Hd|vm_compute; lia].
    + split; [apply Hd|vm_compute; lia].
Qed.

Lemma long_option_string (lo : string) :
  Str.startswith (if Str.startswith lo "--" then lo else "--" +:+ lo) "--" = true.
Proof.
  destruct (Str.startswith lo "--") eqn:Hlo; [done|].
  change ("--" +:+ lo) with (String "-" (String "-" lo)). simpl.
  repeat case_decide; try done. by destruct lo.
Qed.

(** X6. [list_opt_arg] returns at most two option strings, the short
    one first: there is a short one exactly when [short_opt] is a
    non-empty string, and it is a dash and at most one more character;
    there is a long one exactly when [long_opt] is a non-empty string,
    and it starts with two dashes.  The key is the option name of [dest]
    when [dest] is a non-empty string; it is [None] exactly when none of
    the three arguments is a non-empty string; and a key taken from
    [dest] or from [long_opt] has no dash. *)
Theorem list_opt_arg_shape (short_opt long_opt dest : pyval) :
  let key := (list_opt_arg short_opt long_opt dest).1 in
  let cargs := (list_opt_arg short_opt long_opt dest).2 in
  (∃ ss ls, cargs = ss ++ ls
     ∧ match nonempty_str short_opt with
       | Some _ => ∃ o, ss = [o] ∧ Str.startswith o "-" = true ∧ (Str.length o ≤ 2)%nat
       | None => ss = []
       end
     ∧ match nonempty_str long_opt with
       | Some _ => ∃ o, ls = [o] ∧ Str.startswith o "--" = true
       | None => ls = []
       end)
  ∧ (key = PNone ↔ nonempty_str short_opt = None ∧ nonempty_str long_opt = None
                   ∧ nonempty_str dest = None)
  ∧ (∀ d, nonempty_str dest = Some d → key = PStr (optname d))
  ∧ (is_Some (nonempty_str dest) ∨ is_Some (nonempty_str long_opt) →
     ∃ k, key = PStr k ∧ no_dash k).
Proof.
  unfold list_opt_arg.
  destruct (nonempty_str short_opt) as [so|] eqn:Hs,
           (nonempty_str long_opt) as [lo|] eqn:Hl,
           (nonempty_str dest) as [d|] eqn:Hd; simpl.
  all: split; [|split; [naive_solver|split; [naive_solver|]]].
  all: try (intros _; eexists; split; [done|];
            first [apply optname_no_dash | apply replace_no_dash]).
  all: try (intros [[? ?]|[? ?]]; done).
  - eexists [_], [_]. split; [done|]. split; eexists; (split; [done|]).
    + apply short_option_string.
    + apply long_option_string.
  - eexists [_], [_]. split; [done|]. split; eexists; (split; [done|]).
    + apply short_option_string.
    + apply long_option_string.
  - eexists [_], []. split; [done|]. split; [|done]. eexists; (split; [done|]).
    apply short_option_string.
  - eexists [_], []. split; [done|]. split; [|done]. eexists; (split; [done|]).
    apply short_option_string.
  - eexists [], [_]. split; [done|]. split; [done|]. eexists; (split; [done|]).
    apply long_option_string.
  - eexists [], [_]. split; [done|]. split; [done|]. eexists; (split; [done|]).
    apply long_option_string.
  - by eexists [], [].
  - by eexists [], [].
Qed.

(** *** The helpers register and exclude their own option *)

Lemma add_argument_ok (cargs : list string) (k : action_kind) (dest_kw : pyval)
    (dflt : option pyval) (st st' : state) :
  add_argument cargs k dest_kw dflt st = (st', Ok tt) →
  ∃ d, st' = set_actions (actions st ++
                 [{| option_strings := cargs; dest := d;
                     act_default := dflt; kind := k |}]) st.
Proof.
  unfold add_argument. munfold. simpl.
  destruct (match dest_kw with
            | PNone => infer_dest cargs
            | PStr d => Ok d
            | _ => Raise (TypeError "dest")
            end) as [d|e]; simpl; [|done].
  destruct (filter _ cargs); simpl; [|done]. intros [= <-]. by exists d.
Qed.

Lemma exclude_own_ok (key : pyval) (st : state) :
  exclude_own key st
  = (set_exclude (match nonempty_str key with
                  | Some k => exclude_one (write_config_exclude_default st) (PStr k)
                  | None => write_config_exclude_default st
                  end) st, Ok tt).
Proof.
  unfold exclude_own. destruct (nonempty_str key) as [k|]; simpl; [done|].
  by destruct st.
Qed.

(** X7. When [add_argument_help], [add_argument_verbose],
    [add_argument_quiet] or [add_argument_save_config] returns, the key
    that [list_opt_arg] gives for its arguments is stored in
    [option_key_alist] under the helper's name, the option name of that
    key is in the exclusion list, so that the helper's own option is
    never saved, and one action with the option strings of
    [list_opt_arg] has been added after those there were, or none when
    there is no option string. *)
Theorem helpers_exclude_their_own_option (c : call) (name : string)
    (short_opt long_opt : pyval) (kw : kwds) (st st' : state) :
  helper_of c = Some (name, short_opt, long_opt, kw) →
  run_call c st = (st', Ok tt) →
  let key := (list_opt_arg short_opt long_opt (kw_dest kw)).1 in
  let cargs := (list_opt_arg short_opt long_opt (kw_dest kw)).2 in
  option_key_alist st' = <[name := key]> (option_key_alist st)
  ∧ (∀ k, nonempty_str key = Some k → optname k ∈ write_config_exclude_default st')
  ∧ (if decide (cargs = []) then actions st' = actions st
     else ∃ a, actions st' = actions st ++ [a] ∧ option_strings a = cargs).
Proof.
  intros Hc Hrun key cargs.
  assert (Hgen : ∀ m : M unit,
    (∀ s s', m s = (s', Ok tt) →
       if decide (cargs = []) then s' = s
       else ∃ a, s' = set_actions (actions s ++ [a]) s ∧ option_strings a = cargs) →
    (modify (set_option_key name key) ;; m ;; exclude_own key) st = (st', Ok tt) →
    option_key_alist st' = <[name := key]> (option_key_alist st)
    ∧ (∀ k, nonempty_str key = Some k → optname k ∈ write_config_exclude_default st')
    ∧ (if decide (cargs = []) then actions st' = actions st
       else ∃ a, actions st' = actions st ++ [a] ∧ option_strings a = cargs)).
  { intros m Hm. munfold. simpl.
    destruct (m (set_option_key name key st)) as [s1 [[]|e]] eqn:Hm1; [|done].
    rewrite exclude_own_ok. intros [= <-]. apply Hm in Hm1.
    assert (Hex : ∀ k, nonempty_str key = Some k →
              optname k ∈ match nonempty_str key with
                          | Some k => exclude_one (write_config_exclude_default s1) (PStr k)
                          | None => write_config_exclude_default s1
                          end).
    { intros k Hk. rewrite Hk. apply exclude_one_registers.
      by apply nonempty_str_Some in Hk as [_ ?]. }
    destruct (decide (cargs = [])).
    - subst s1. split; [reflexivity|]. split; [exact Hex|reflexivity].
    - destruct Hm1 as (a & -> & Ha). split; [reflexivity|]. split; [exact Hex|].
      exists a. by split. }
  destruct c; simplify_eq/=.
  - revert Hrun. unfold add_argument_help, add_argument_flag.
    fold key cargs. rewrite (surjective_pairing (list_opt_arg _ _ _)).
    fold key cargs. apply Hgen. intros s s' Hs.
    destruct (decide (cargs = [])); [by inversion Hs|].
    apply add_argument_ok in Hs as [d ->]. by eexists.
  - revert Hrun. unfold add_argument_verbose, add_argument_flag.
    rewrite (surjective_pairing (list_opt_arg _ _ _)).
    fold key cargs. apply Hgen. intros s s' Hs.
    destruct (decide (cargs = [])); [by inversion Hs|].
    apply add_argument_ok in Hs as [d ->]. by eexists.
  - revert Hrun. unfold add_argument_quiet, add_argument_flag.
    rewrite (surjective_pairing (list_opt_arg _ _ _)).
    fold key cargs. apply Hgen. intros s s' Hs.
    destruct (decide (cargs = [])); [by inversion Hs|].
    apply add_argument_ok in Hs as [d ->]. by eexists.
  - revert Hrun. unfold add_argument_save_config.
    rewrite (surjective_pairing (list_opt_arg _ _ _)).
    fold key cargs. apply Hgen. intros s s' Hs.
    destruct (decide (cargs = [])); [by inversion Hs|].
    destruct (kw_action kw) as [[]|]; try done;
      apply add_argument_ok in Hs as [d ->]; by eexists.
Qed.

(** *** Loading *)

Lemma load_configfile_unfold (st : state) (p : string) (verbose : bool)
    (ini toml : string) :
  exists_ (files st) p = true →
  load_configfile (PStr p) verbose ini toml st
  = match read_config (files st) p ini toml ≫= update_from_dict (namespace st) with
    | Ok ns => (set_namespace ns st, Ok tt)
    | Raise e => (st, Raise e)
    end.
Proof.
  intros Hex. unfold load_configfile, nonempty_str. munfold. simpl.
  destruct (decide (p = "")) as [->|_].
  { unfold exists_ in Hex. by rewrite bool_decide_eq_true_2 in Hex. }
  rewrite Hex. destruct (read_config _ _ _ _) as [data|e]; simpl; [|done].
  by destruct (update_from_dict _ _).
Qed.

(** X8. Loading a file that decodes to the mapping [D] leaves the
    namespace [D ∪ ns]: every key of [D] has the value of [D], whatever
    the namespace held for it, and every other key keeps its value.
    Nothing else of the state changes, and loading the same file again
    changes nothing at all. *)
Theorem load_merges_file_over_namespace (st : state) (p : string) (verbose : bool)
    (ini toml : string) (D : gmap string pyval) :
  exists_ (files st) p = true →
  read_config (files st) p ini toml = Ok (PDict D) →
  let r := load_configfile (PStr p) verbose ini toml st in
  r = (set_namespace (D ∪ namespace st) st, Ok tt)
  ∧ load_configfile (PStr p) verbose ini toml r.1 = r.
Proof.
  intros Hex Hread r.
  assert (Hr : r = (set_namespace (D ∪ namespace st) st, Ok tt)).
  { unfold r. rewrite load_configfile_unfold, Hread by done. simpl.
    by rewrite update_from_dict_union. }
  split; [done|]. rewrite Hr. simpl.
  rewrite load_configfile_unfold by done. simpl. rewrite Hread. simpl.
  rewrite update_from_dict_union.
  by rewrite (assoc_L (∪)), (idemp_L (∪)).
Qed.

(** X9. When the file is there and cannot be used, because
    [read_config] raises or because what it decodes is not a mapping,
    loading raises, with the error of [read_config] or with
    [AttributeError], and leaves the state as it was; the constructor
    called with a path for which [read_config] raises, raises that
    error. *)
Theorem load_failure_changes_nothing (st : state) (p : string) (verbose : bool)
    (ini toml : string) :
  exists_ (files st) p = true →
  (∀ e, read_config (files st) p ini toml = Raise e →
        load_configfile (PStr p) verbose ini toml st = (st, Raise e))
  ∧ (∀ v, read_config (files st) p ini toml = Ok v →
          (∀ d, v ≠ PDict d) →
          load_configfile (PStr p) verbose ini toml st
          = (st, Raise (AttributeError "items")))
  ∧ (∀ e exclude_save indent flow_style add_help,
       read_config (files st) p INI_SECTION TOML_SECTION = Raise e →
       (init (PStr p) exclude_save indent flow_style add_help (blank (files st))).2
       = Raise e).
Proof.
  intros Hex. split; [|split].
  - intros e He. by rewrite load_configfile_unfold, He.
  - intros v Hv Hnd. rewrite load_configfile_unfold, Hv by done. simpl.
    destruct v; try done. by destruct (Hnd d).
  - intros e exclude_save indent flow_style add_help He.
    unfold init, load_config. munfold. simpl.
    rewrite load_configfile_unfold by done. simpl. by rewrite He.
Qed.

(** *** The namespace as JSON *)


(** *** Saving *)

Lemma bind_ok {A B} (m : M A) (f : A → M B) (st st' : state) (b : B) :
  (m ≫= f) st = (st', Ok b) → ∃ a st1, m st = (st1, Ok a) ∧ f a st1 = (st', Ok b).
Proof. munfold. destruct (m st) as [st1 [a|e]]; [by eauto|done]. Qed.

Lemma fs_op_ok (g : gmap string node → result (gmap string node)) (st st' : state) :
  fs_op g st = (st', Ok tt) → ∃ fs', g (files st) = Ok fs' ∧ st' = set_files fs' st.
Proof. unfold fs_op. destruct (g (files st)); intros H; simplify_eq. by eauto. Qed.

Lemma lift_ok {A} (r : result A) (st st' : state) (a : A) :
  lift r st = (st', Ok a) → r = Ok a ∧ st' = st.
Proof. unfold lift. by intros [= -> ->]. Qed.

Lemma write_through_ok (c : codec) (fs fs' : gmap string node) (p : string) (content : text) :
  write_through c fs p content = Ok fs' →
  ∃ m, fs' = <[p := File c content m]> fs.
Proof.
  unfold write_through. intros H. repeat case_match; simplify_eq; by eauto.
Qed.

Lemma chmod_written (c : codec) (fs fs' : gmap string node) (p : string)
    (content : text) (m mode : Z) :
  p ≠ "" →
  chmod (<[p := File c content m]> fs) p mode = Ok fs' →
  fs' = <[p := File c content mode]> fs.
Proof.
  unfold chmod. intros Hp. destruct (decide (p = "")); [done|].
  rewrite lookup_insert_eq. intros [= <-]. by rewrite insert_insert_eq.
Qed.

Lemma write_configfile_unfold (p : string) (data : gmap string pyval)
    (excl : pyval) (f_mode : Z) (mk_dir : bool) (d_mode : Z) (i f : pyval)
    (ini toml : string) :
  p ≠ "" →
  write_configfile (PStr p) data excl f_mode mk_dir d_mode i f ini toml
  = ((if mk_dir then
        if decide (OsPath.dirname p = "") then ret tt
        else fs_op (λ fs, makedirs fs (OsPath.dirname p) d_mode)
      else ret tt) ;;
     content ← lift (dict_to_string data excl (OsPath.splitext (format_name p)).2
                       i f ini PNone toml);
     fs_op (λ fs, write_through (open_compressed p) fs p content) ;;
     fs_op (λ fs, chmod fs p f_mode)).
Proof.
  intros Hp. unfold write_configfile, format_name.
  destruct (decide (p = "")); [done|]. by destruct (OsPath.splitext p).
Qed.

Lemma write_configfile_ok (st st' : state) (p : string) (data : gmap string pyval)
    (excl : pyval) (f_mode : Z) (mk_dir : bool) (d_mode : Z) (i f : pyval)
    (ini toml : string) :
  p ≠ "" →
  write_configfile (PStr p) data excl f_mode mk_dir d_mode i f ini toml st = (st', Ok tt) →
  ∃ content fs1,
    dict_to_string data excl (OsPath.splitext (format_name p)).2 i f ini PNone toml
    = Ok content
    ∧ st' = set_files (<[p := File (open_compressed p) content f_mode]> fs1) st.
Proof.
  intros Hp. rewrite write_configfile_unfold by done. intros H.
  apply bind_ok in H as ([] & st1 & H1 & H).
  apply bind_ok in H as (content & st2 & H2 & H).
  apply lift_ok in H2 as [H2 ?]; subst st2.
  apply bind_ok in H as ([] & st3 & H3 & H).
  apply fs_op_ok in H3 as (fs3 & H3 & ->).
  apply fs_op_ok in H as (fs4 & H4 & ->).
  apply write_through_ok in H3 as [m ->]. simpl in H4.
  apply chmod_written in H4 as ->; [|done].
  exists content, (files st1). split; [done|].
  assert (Hst : st1 = set_files (files st1) st).
  { destruct mk_dir; [destruct (decide (OsPath.dirname p = ""))|].
    all: try (apply fs_op_ok in H1 as (? & _ & ->); done).
    all: inversion H1; subst; by destruct st1. }
  by rewrite Hst.
Qed.

(** X11. When [write_config] returns for a path that is a non-empty
    string, the file of that path holds the text that
    [skimmed_args_to_string] gives for the same excluded keys and the
    extension of the name without its compression extension, written
    through the codec of the name and with the permission bits asked
    for; only the files of the state have changed. *)
Theorem write_config_saves_the_skimmed_text (st st' : state) (p : string)
    (exclude_keys : pyval) (f_mode : Z) (mk_dir : bool) (d_mode : Z) :
  p ≠ "" →
  write_config (PStr p) exclude_keys f_mode mk_dir d_mode st = (st', Ok tt) →
  ∃ content,
    skimmed_args_to_string exclude_keys (OsPath.splitext (format_name p)).2 st
    = (st, Ok content)
    ∧ files st' !! p = Some (File (open_compressed p) content f_mode)
    ∧ st' = set_files (files st') st.
Proof.
  intros Hp H. unfold write_config in H.
  apply bind_ok in H as (st0 & st1 & H0 & H). inversion H0; subst st0 st1.
  apply bind_ok in H as (excl & st1 & H1 & H).
  apply lift_ok in H1 as [H1 ?]; subst st1.
  apply write_configfile_ok in H as (content & fs1 & Hc & ->); [|done].
  exists content. split; [|split].
  - unfold skimmed_args_to_string. munfold. rewrite H1. simpl.
    by rewrite Hc.
  - simpl. by rewrite lookup_insert_eq.
  - done.
Qed.

Lemma makedirs_fuel_keeps (fuel : nat) (fs fs' : gmap string node) (d : string)
    (mode : Z) (q : string) (n : node) :
  makedirs_fuel fuel fs d mode = Ok fs' → fs !! q = Some n → fs' !! q = Some n.
Proof.
  revert fs fs' d mode. induction fuel as [|fuel IH]; intros fs fs' d mode; simpl.
  - destruct (fs !! d) as [[]|] eqn:Hd; [done|by intros [= ->]|].
    destruct (parent_ok fs d); [|done]. intros [= <-] Hq.
    rewrite lookup_insert_ne; [done|]. intros ->. by rewrite Hd in Hq.
  - destruct (fs !! d) as [[]|] eqn:Hd; [done|by intros [= ->]|].
    destruct (parent_ok fs d).
    + intros [= <-] Hq. rewrite lookup_insert_ne; [done|].
      intros ->. by rewrite Hd in Hq.
    + destruct (makedirs_fuel fuel fs (OsPath.dirname d) 511) as [fs1|] eqn:H1;
        simpl; [|done].
      intros [= <-] Hq. rewrite lookup_insert_ne; [by eapply IH|].
      intros ->. by rewrite Hd in Hq.
Qed.

Lemma makedirs_keeps (fs fs' : gmap string node) (d : string) (mode : Z)
    (q : string) (n : node) :
  makedirs fs d mode = Ok fs' → fs !! q = Some n → fs' !! q = Some n.
Proof.
  unfold makedirs. destruct (decide (d = "")); [done|]. apply makedirs_fuel_keeps.
Qed.

Global Instance entry_kept_refl (q : string) : Reflexive (entry_kept q).
Proof. by intros st n. Qed.

Global Instance entry_kept_trans (q : string) : Transitive (entry_kept q).
Proof. intros a b c H1 H2 n Hn. by apply H2, H1. Qed.

Lemma entry_kept_write_configfile (q : string) (f_path : pyval)
    (data : gmap string pyval) (excl : pyval) (f_mode : Z) (mk_dir : bool)
    (d_mode : Z) (i f : pyval) (ini toml : string) :
  f_path ≠ PStr q →
  within (entry_kept q)
    (write_configfile f_path data excl f_mode mk_dir d_mode i f ini toml).
Proof.
  intros Hq. unfold write_configfile.
  destruct f_path as [| | |p| | | | |]; try apply (within_ret (entry_kept q)).
  assert (Hpq : p ≠ q) by congruence.
  destruct (decide (p = "")); [apply (within_ret (entry_kept q))|].
  destruct (OsPath.splitext p) as [bn0 ext].
  apply (within_bind (entry_kept q)).
  { destruct mk_dir; [|apply (within_ret (entry_kept q))].
    destruct (decide _); [apply (within_ret (entry_kept q))|].
    apply (within_fs_op (entry_kept q)). intros s fs' Hm nd Hnd. simpl.
    by eapply makedirs_keeps. }
  intros _. apply (within_bind (entry_kept q)); [apply (within_lift (entry_kept q))|].
  intros content. apply (within_bind (entry_kept q)).
  - apply (within_fs_op (entry_kept q)). intros s fs' Hw nd Hnd. simpl.
    apply write_through_ok in Hw as [m ->]. by rewrite lookup_insert_ne.
  - intros _. apply (within_fs_op (entry_kept q)). intros s fs' Hc nd Hnd. simpl.
    unfold chmod in Hc. repeat case_match; simplify_eq;
      by rewrite lookup_insert_ne.
Qed.


(** *** Saving and loading again *)

Lemma splitext_endswith (name e : string) :
  (OsPath.splitext name).2 = e → e ≠ "" → Str.endswith name e = true.
Proof.
  intros Hx He. destruct (splitext_ext name) as [H0|[n Hn]]; [congruence|].
  rewrite Hn in Hx. subst e. unfold Str.endswith.
  rewrite (rev_from n name). apply startswith_append.
Qed.

Lemma open_compressed_plain (p e : string) :
  e ∈ [".json"; ".yaml"; ".yml"] → Str.endswith p e = true →
  open_compressed p = Plain.
Proof.
  intros He. unfold open_compressed, Str.endswith.
  change (Str.rev ".bz2") with "2zb."; change (Str.rev ".gz") with "zg.";
    change (Str.rev ".xz") with "zx.".
  repeat (apply elem_of_cons in He as [->|He]); try (by apply elem_of_nil in He).
  all: unfold Str.rev at 2; simpl Str.rev_onto.
  all: destruct (Str.rev p) as [|c1 [|c2 [|c3 r]]]; simpl; try done;
    repeat case_decide; simplify_eq; done.
Qed.

(** the format a name is written in is the format it is read in *)
Lemma encode_decode_by_name (bn e : string) (d : gmap string pyval)
    (i f : pyval) (content : text) :
  e ∈ [".json"; ".yaml"; ".yml"] →
  Str.endswith bn e = true →
  (∀ t, json_dumps d i = Ok t → json_loads t = Ok (PDict d)) →
  (∀ t, yaml_dump d f = Ok t → yaml_safe_load t = Ok (PDict d)) →
  (if Str.endswith e "json" then json_dumps d i
   else if Str.endswith e "yaml" || Str.endswith e "yml" then yaml_dump d f
   else Raise (ValueError "")) = Ok content →
  (if Str.endswith bn ".json" then json_loads content
   else if Str.endswith bn ".yaml" || Str.endswith bn ".yml"
        then yaml_safe_load content
        else Raise (ValueError "Unsupported config file format"))
  = Ok (PDict d).
Proof.
  intros He Hbn Hj Hy.
  repeat (apply elem_of_cons in He as [->|He]); try (by apply elem_of_nil in He).
  - rewrite Hbn. change (Str.endswith ".json" "json") with true. cbv iota. apply Hj.
  - rewrite (endswith_yaml_not_json bn) by auto. rewrite Hbn.
    change (Str.endswith ".yaml" "json") with false.
    change (Str.endswith ".yaml" "yaml") with true. cbn [orb]. cbv iota. apply Hy.
  - rewrite (endswith_yaml_not_json bn) by auto. rewrite Hbn.
    change (Str.endswith ".yml" "json") with false.
    change (Str.endswith ".yml" "yaml") with false.
    change (Str.endswith ".yml" "yml") with true. cbn [orb]. cbv iota.
    rewrite orb_true_r. apply Hy.
Qed.

(** X13. What [write_config] saves under a JSON or YAML name, with or
    without a compression extension, [read_config] reads back from that
    path: the namespace without the registered and the given keys,
    provided the decoder of the format reads what its encoder writes for
    this mapping.  Loading the file into the parser that saved it changes
    nothing, and a parser constructed on it starts with that mapping as
    its namespace. *)
Theorem saved_config_loads_back (st st' : state) (p e : string) (l : list pyval)
    (f_mode : Z) (mk_dir : bool) (d_mode : Z) :
  let d := filter (λ kv, excluded (PList ((PStr <$> write_config_exclude_default st) ++ l))
                           kv.1 = false) (namespace st) in
  p ≠ "" →
  (OsPath.splitext (format_name p)).2 = e →
  e ∈ [".json"; ".yaml"; ".yml"] →
  (∀ t, json_dumps d (json_indent st) = Ok t → json_loads t = Ok (PDict d)) →
  (∀ t, yaml_dump d (yaml_default_flow_style st) = Ok t →
        yaml_safe_load t = Ok (PDict d)) →
  write_config (PStr p) (PList l) f_mode mk_dir d_mode st = (st', Ok tt) →
  (∀ ini toml, read_config (files st') p ini toml = Ok (PDict d))
  ∧ (∀ verbose, load_config (PStr p) verbose st' = (st', Ok tt))
  ∧ (∀ exclude_save indent flow_style add_help,
       namespace (init (PStr p) exclude_save indent flow_style add_help
                    (blank (files st'))).1 = d).
Proof.
  intros d Hp He Hin Hj Hy Hw.
  assert (Hne : e ≠ "").
  { intros ->. set_solver. }
  pose proof (splitext_endswith _ _ He Hne) as Hbn.
  unfold write_config in Hw.
  apply bind_ok in Hw as (st0 & st1 & H0 & Hw). inversion H0; subst st0 st1.
  apply bind_ok in Hw as (excl & st1 & H1 & Hw).
  apply lift_ok in H1 as [H1 ?]; subst st1. simpl in H1. injection H1 as <-.
  apply write_configfile_ok in Hw as (content & fs1 & Hc & ->); [|done].
  unfold dict_to_string, to_dict in Hc. rewrite skim_collection in Hc by done.
  cbn [mbind result_bind rbind] in Hc. fold d in Hc. rewrite He in Hc.
  assert (Hread : ∀ ini toml,
    read_config (<[p:=File (open_compressed p) content f_mode]> fs1) p ini toml
    = Ok (PDict d)).
  { intros ini toml. rewrite read_config_unfold.
    assert (Ht : read_text (<[p:=File (open_compressed p) content f_mode]> fs1) p
                 = Ok content).
    { unfold read_text, read_through. destruct (decide (p = "")); [done|].
      rewrite lookup_insert_eq.
      destruct (bool_decide _) eqn:Hcomp.
      - by destruct (decide _).
      - assert (Hfn : format_name p = p).
        { unfold format_name. destruct (OsPath.splitext p). simpl in Hcomp.
          by rewrite Hcomp. }
        rewrite Hfn in Hbn. rewrite (open_compressed_plain p e) by done.
        by destruct (decide _). }
    rewrite Ht. cbn [mbind result_bind rbind]. cbv zeta.
    assert (Hfmt : (if Str.endswith e "json" then json_dumps d (json_indent st)
                    else if Str.endswith e "yaml" || Str.endswith e "yml"
                         then yaml_dump d (yaml_default_flow_style st)
                         else Raise (ValueError "")) = Ok content).
    { revert Hc. clear -Hin.
      repeat (apply elem_of_cons in Hin as [->|Hin]);
        try (by apply elem_of_nil in Hin); done. }
    pose proof (encode_decode_by_name _ e d _ _ content Hin Hbn Hj Hy Hfmt) as Hdec.
    destruct (Str.endswith (format_name p) ".json"); [done|].
    by destruct (Str.endswith (format_name p) ".yaml" || Str.endswith (format_name p) ".yml"). }
  assert (Hex : exists_ (<[p:=File (open_compressed p) content f_mode]> fs1) p = true).
  { unfold exists_. rewrite lookup_insert_eq.
    rewrite bool_decide_eq_false_2 by done. by rewrite bool_decide_eq_true_2. }
  split; [exact Hread|]. split.
  - intros verbose. unfold load_config.
    rewrite load_configfile_unfold by done. simpl. rewrite Hread. simpl.
    rewrite update_from_dict_union.
    assert (Hsub : d ∪ namespace st = namespace st).
    { apply map_subseteq_union. apply map_filter_subseteq. }
    rewrite Hsub. by destruct st.
  - intros exclude_save indent flow_style add_help.
    unfold init, load_config. munfold. simpl.
    rewrite load_configfile_unfold by done. simpl. rewrite Hread. simpl.
    rewrite update_from_dict_union. by rewrite (right_id_L ∅ (∪)).
Qed.


(** *** The text of the namespace *)

Lemma excluded_registered (w : list string) (l : list pyval) (k : string) :
  excluded (PList ((PStr <$> w) ++ l)) k
  = bool_decide (k ∈ w) || excluded (PList l) k.
Proof.
  simpl. rewrite existsb_app. f_equal.
  induction w as [|x w IH]; [done|].
  rewrite fmap_cons. cbn [existsb]. rewrite IH. destruct (decide (x = k)) as [->|Hx].
  - rewrite (bool_decide_eq_true_2 (k = k)) by done.
    by rewrite (bool_decide_eq_true_2 (k ∈ k :: w)) by left.
  - rewrite (bool_decide_eq_false_2 (x = k)) by done. simpl.
    apply bool_decide_ext. set_solver.
Qed.

(** X14. For a list of keys, [skimmed_args_to_string] gives the text
    [args_to_string] gives for the same list once the registered names
    are taken out of the namespace; neither changes the state.  For a
    tuple, a set or a dict of keys, which [args_to_string] takes as it
    takes the list of the same keys, [skimmed_args_to_string] raises
    [TypeError]. *)
Theorem skimmed_text_is_text_without_registered (st : state) (fmt : string) :
  (∀ l : list pyval,
     skimmed_args_to_string (PList l) fmt st
     = (st, (args_to_string (PList l) fmt
               (set_namespace (filter (λ kv, kv.1 ∉ write_config_exclude_default st)
                                 (namespace st)) st)).2))
  ∧ (∀ exclude_keys,
       collection exclude_keys → (∀ l, exclude_keys ≠ PList l) →
       (∃ msg, skimmed_args_to_string exclude_keys fmt st = (st, Raise (TypeError msg)))
       ∧ args_to_string exclude_keys fmt st
         = (st, (args_to_string (PList [])  fmt
                   (set_namespace (filter (λ kv, excluded exclude_keys kv.1 = false)
                                     (namespace st)) st)).2)).
Proof.
  split.
  - intros l.
    assert (Hf : filter (λ kv, excluded (PList ((PStr <$> write_config_exclude_default st) ++ l)) kv.1 = false) (namespace st)
                 = filter (λ kv, excluded (PList l) kv.1 = false)
                     (filter (λ kv, kv.1 ∉ write_config_exclude_default st) (namespace st))).
    { rewrite map_filter_filter.
      apply map_filter_ext. intros k v _.
      rewrite excluded_registered. cbn [fst].
      destruct (decide (k ∈ write_config_exclude_default st)) as [Hk|Hk].
      + rewrite bool_decide_eq_true_2 by done. simpl. naive_solver.
      + rewrite bool_decide_eq_false_2 by done. simpl. naive_solver. }
    unfold skimmed_args_to_string, args_to_string. munfold.
    cbn [list_concat namespace set_namespace fst snd json_indent yaml_default_flow_style].
    f_equal. unfold dict_to_string, to_dict.
    rewrite !skim_collection by done. by rewrite Hf.
  - intros exclude_keys Hc Hl. split.
    + unfold skimmed_args_to_string. munfold. simpl.
      destruct exclude_keys; try done; [by destruct (Hl l)| | |]; by eexists.
    + unfold args_to_string. munfold. simpl. f_equal.
      unfold dict_to_string, to_dict.
      by rewrite skim_collection, skim_nothing by done.
Qed.

(** X15. [dict_to_string] in the INI format sets the keys in the
    section [ini_section] of a new [ConfigParser], which it never adds:
    where setting a key there raises [KeyError], as it does for a
    section the new parser lacks, the call raises it as soon as there
    is one key to write, and returns the text of the empty parser when
    there is none. *)
Theorem ini_text_needs_a_section_of_the_new_parser (data d : gmap string pyval)
    (exclude_keys : pyval) (fmt : string) (i f enc : pyval) (S toml : string) :
  Str.endswith fmt "ini" = true →
  skim data exclude_keys = Ok d →
  (∀ k v, d !! k = Some v → cp_setitem cp_new S k (py_str v) = Raise (KeyError S)) →
  dict_to_string data exclude_keys fmt i f S enc toml
  = if decide (d = ∅) then Ok (cp_write cp_new) else Raise (KeyError S).
Proof.
  intros Hfmt Hd Hset. unfold dict_to_string. rewrite Hd.
  cbn [mbind result_bind rbind].
  assert (Hn : Str.endswith fmt "json" = false ∧ Str.endswith fmt "yaml" = false
               ∧ Str.endswith fmt "yml" = false).
  { revert Hfmt. unfold Str.endswith.
    change (Str.rev "ini") with "ini"; change (Str.rev "json") with "nosj";
      change (Str.rev "yaml") with "lmay"; change (Str.rev "yml") with "lmy".
    destruct (Str.rev fmt) as [|c1 [|c2 [|c3 r]]]; simpl; try done;
      repeat case_decide; simplify_eq; done. }
  destruct Hn as (-> & -> & ->). simpl. rewrite Hfmt.
  destruct (decide (d = ∅)) as [->|Hne].
  { by rewrite map_to_list_empty. }
  destruct (map_to_list d) as [|[k v] kvs] eqn:Hl.
  { by apply map_to_list_empty_iff in Hl. }
  assert (Hkv : d !! k = Some v).
  { apply elem_of_map_to_list. rewrite Hl. by left. }
  simpl. rewrite (Hset k v Hkv).
  assert (Hfold : ∀ kvs', foldl (λ (acc : result ConfigParser) (kv : string * pyval),
                     acc ≫= λ config, cp_setitem config S kv.1 (py_str kv.2))
                    (Raise (KeyError S)) kvs' = Raise (KeyError S)).
  { intros kvs'. by induction kvs' as [|x xs IH]. }
  by rewrite Hfold.
Qed.

(** *** An option string that is taken *)

Lemma add_argument_conflict (cargs : list string) (k : action_kind) (dest_kw : pyval)
    (dflt : option pyval) (st : state) (o : string) (a : action) :
  o ∈ cargs → a ∈ actions st → o ∈ option_strings a →
  ∃ e, add_argument cargs k dest_kw dflt st = (st, Raise e).
Proof.
  intros Ho Ha Hoa. unfold add_argument. munfold. simpl.
  destruct (match dest_kw with
            | PNone => infer_dest cargs
            | PStr d => Ok d
            | _ => Raise (TypeError "dest")
            end) as [d|e]; simpl; [|by eexists].
  destruct (filter _ cargs) as [|o' os] eqn:Hf; simpl; [|by eexists].
  assert (Hin : o ∈ filter (λ o, bool_decide (Exists (λ a, o ∈ option_strings a) (actions st))) cargs).
  { apply list_elem_of_filter. split; [|done].
    apply bool_decide_spec, Exists_exists. by exists a. }
  rewrite Hf in Hin. by apply elem_of_nil in Hin.
Qed.

Lemma init_actions (fs : gmap string node)
    (conf_path exclude_save indent flow_style : pyval) (add_help : bool) :
  actions (init conf_path exclude_save indent flow_style add_help (blank fs)).1
  = if add_help then [argparse_help] else [].
Proof.
  unfold init, load_config, load_configfile, append_write_config_exclude.
  munfold. simpl.
  destruct (nonempty_str conf_path) as [p|]; simpl; [|done].
  destruct (exists_ fs p); simpl; [|done].
  destruct (read_config fs p INI_SECTION TOML_SECTION) as [data|e]; simpl; [|done].
  by destruct (update_from_dict ∅ data).
Qed.

(** X16. A helper one of whose option strings is taken by an option of
    the parser raises, with the key of its option recorded and nothing
    else changed: no action is added and the name is not excluded from
    saving.  So it is with a helper given [-h] or [--help] on a parser
    constructed with [add_help] set, which has argparse's own help
    option. *)
Theorem helper_with_a_taken_option_string (c : call) (name : string)
    (short_opt long_opt : pyval) (kw : kwds) (st : state) :
  helper_of c = Some (name, short_opt, long_opt, kw) →
  let key := (list_opt_arg short_opt long_opt (kw_dest kw)).1 in
  let cargs := (list_opt_arg short_opt long_opt (kw_dest kw)).2 in
  ((∃ o a, o ∈ cargs ∧ a ∈ actions st ∧ o ∈ option_strings a) →
   raises (run_call c st).2
   ∧ (run_call c st).1 = set_option_key name key st)
  ∧ (∀ fs conf_path exclude_save indent flow_style,
       st = (init conf_path exclude_save indent flow_style true (blank fs)).1 →
       "-h" ∈ cargs ∨ "--help" ∈ cargs →
       raises (run_call c st).2).
Proof.
  intros Hc key cargs.
  assert (Hgen : (∃ o a, o ∈ cargs ∧ a ∈ actions st ∧ o ∈ option_strings a) →
    raises (run_call c st).2 ∧ (run_call c st).1 = set_option_key name key st).
  { intros (o & a & Ho & Ha & Hoa).
    assert (Hne : cargs ≠ []).
    { intros Hnil. rewrite Hnil in Ho. by apply elem_of_nil in Ho. }
    assert (Hadd : ∀ k dflt, ∃ e,
      add_argument cargs k (kw_dest kw) dflt (set_option_key name key st)
      = (set_option_key name key st, Raise e)).
    { intros k dflt. by apply (add_argument_conflict _ _ _ _ _ o a). }
    destruct c; simplify_eq/=.
    - unfold add_argument_help, add_argument_flag.
      rewrite (surjective_pairing (list_opt_arg _ _ _)). fold key cargs.
      munfold. simpl. destruct (decide (cargs = [])); [done|].
      edestruct Hadd as [e ->]. done.
    - unfold add_argument_verbose, add_argument_flag.
      rewrite (surjective_pairing (list_opt_arg _ _ _)). fold key cargs.
      munfold. simpl. destruct (decide (cargs = [])); [done|].
      edestruct Hadd as [e ->]. done.
    - unfold add_argument_quiet, add_argument_flag.
      rewrite (surjective_pairing (list_opt_arg _ _ _)). fold key cargs.
      munfold. simpl. destruct (decide (cargs = [])); [done|].
      edestruct Hadd as [e ->]. done.
    - unfold add_argument_save_config.
      rewrite (surjective_pairing (list_opt_arg _ _ _)). fold key cargs.
      munfold. simpl. destruct (decide (cargs = [])); [done|].
      destruct (kw_action kw) as [[]|]; try done;
        edestruct Hadd as [e ->]; done. }
  split; [exact Hgen|].
  intros fs conf_path exclude_save indent flow_style -> Hh.
  apply Hgen. rewrite init_actions.
  destruct Hh as [Hh|Hh]; [exists "-h"|exists "--help"]; exists argparse_help;
    (split; [done|]); (split; [by left|]); set_solver.
Qed.

(** *** What only saving does *)

Global Instance same_files_refl : Reflexive same_files.
Proof. by intros st. Qed.

Global Instance same_files_trans : Transitive same_files.
Proof. intros a b c H1 H2. unfold same_files in *. congruence. Qed.

Global Instance same_settings_refl : Reflexive same_settings.
Proof. by intros st. Qed.

Global Instance same_settings_trans : Transitive same_settings.
Proof. intros a b c [??] [??]. split; congruence. Qed.

Ltac frame_prim := by repeat split.

Lemma same_settings_run_call (c : call) : within same_settings (run_call c).
Proof.
  destruct c; simpl;
    try unfold add_argument_help, add_argument_verbose, add_argument_quiet;
    unfold add_argument_flag, add_argument_config, add_argument_save_config,
      exclude_own, append_write_config_exclude, add_argument, load_config,
      load_configfile, parse_args,
      super_parse_args, help_action, take_action, ConfigActionExtd_call,
      parser_error, setattr, save_config_action, write_config, write_configfile,
      args_to_string, skimmed_args_to_string;
    repeat within_step frame_prim.
Qed.

Lemma same_files_run_call (c : call) :
  not_write_config c → within same_files (run_call c).
Proof.
  destruct c; simpl; try done; intros _;
    try unfold add_argument_help, add_argument_verbose, add_argument_quiet;
    unfold add_argument_flag, add_argument_config, add_argument_save_config,
      exclude_own, append_write_config_exclude, add_argument, load_config,
      load_configfile, parse_args,
      super_parse_args, help_action, take_action, ConfigActionExtd_call,
      parser_error, setattr, save_config_action, write_config, write_configfile,
      args_to_string, skimmed_args_to_string;
    repeat within_step frame_prim.
Qed.


(** *** Files in the INI and TOML formats *)

Lemma dict_comp_none {A} (xs : list A) (cond : A → result bool)
    (kv : A → result (string * pyval)) :
  (∀ x, x ∈ xs → cond x = Ok false) → dict_comp xs cond kv = Ok ∅.
Proof.
  unfold dict_comp. generalize (∅ : gmap string pyval).
  induction xs as [|x xs IH]; intros d Hc; [done|].
  simpl. rewrite (Hc x) by left. simpl. apply IH. intros y Hy. apply Hc. by right.
Qed.

(** X18. The methods that load a file read it with the section
    [DEFAULT], which is not among the sections a [ConfigParser] lists,
    and compare the items of a TOML document to the section name: an
    INI or TOML file that exists and parses gives the empty mapping, so
    that [load_config] and the action of the config option return and
    leave the state, the namespace with it, as it was. *)
Theorem ini_and_toml_files_load_nothing (st : state) (p : string) (content : text) :
  exists_ (files st) p = true →
  read_text (files st) p = Ok content →
  (Str.endswith (format_name p) ".toml" = true
   ∧ ∃ config, toml_loads content = Ok config)
  ∨ (Str.endswith (format_name p) ".ini" = true
     ∧ ∃ c, cp_read_string cp_new content = Ok c ∧ "DEFAULT" ∉ cp_sections c) →
  read_config (files st) p INI_SECTION TOML_SECTION = Ok (PDict ∅)
  ∧ (∀ verbose, load_config (PStr p) verbose st = (st, Ok tt))
  ∧ ConfigActionExtd_call p st = (st, Ok tt).
Proof.
  intros Hex Ht Hfmt.
  assert (Hread : read_config (files st) p INI_SECTION TOML_SECTION = Ok (PDict ∅)).
  { rewrite read_config_unfold, Ht. cbn [mbind result_bind rbind]. cbv zeta.
    destruct Hfmt as [[Hp [config Hc]]|[Hp (c & Hc & Hs)]].
    - destruct (endswith_toml_only _ Hp) as (-> & -> & -> & ->).
      rewrite Hp, Hc. cbn [orb mbind result_bind rbind].
      by rewrite toml_comprehension_empty.
    - destruct (endswith_ini_only _ Hp) as (-> & -> & ->).
      rewrite Hp, Hc. cbn [orb mbind result_bind rbind].
      rewrite dict_comp_none; [done|].
      intros s Hin. f_equal. apply bool_decide_eq_false_2. by intros ->. }
  split; [exact Hread|]. split.
  - intros verbose. unfold load_config.
    rewrite load_configfile_unfold by done. rewrite Hread. simpl.
    rewrite update_from_dict_union, (left_id_L ∅ (∪)). by destruct st.
  - rewrite ConfigActionExtd_call_spec, Hex, Hread. simpl.
    rewrite update_from_dict_union, (left_id_L ∅ (∪)). by destruct st.
Qed.

End Further.

(** ** The further statements on the reference libraries *)

Section FurtherReference.
#[local] Existing Instance ref_libs.

Lemma registration_is_idempotent_witness :
  let st1 := (append_write_config_exclude
                (PList [PStr "--dry-run"; PInt 3; PStr "-v"]) Demo.fresh).1 in
  write_config_exclude_default st1 = ["dry_run"; "v"]
  ∧ (append_write_config_exclude (PStr "--dry-run") st1).1 = st1.
Proof.
  intros st1. split; [reflexivity|].
  apply (registration_is_idempotent (PList [PStr "--dry-run"; PInt 3; PStr "-v"])
           Demo.fresh).
  by left.
Defined.


Lemma parse_args_needs_the_help_option_witness :
  (parse_args [] true Demo.fresh).2 = Raise (KeyError "help").
Proof.
  apply (parse_args_needs_the_help_option Demo.fresh []); reflexivity.
Defined.

Lemma list_opt_arg_shape_witness :
  (list_opt_arg PNone (PStr "dry-run") (PStr "--no-act")).1 = PStr "no_act".
Proof.
  exact (proj1 (proj2 (proj2 (list_opt_arg_shape PNone (PStr "dry-run")
                                 (PStr "--no-act")))) "--no-act" eq_refl).
Defined.

Lemma helpers_exclude_their_own_option_witness :
  let st' := (add_argument_quiet (PStr "-q") (PStr "--quiet")
                {| kw_dest := PStr "verbose"; kw_action := None |} Demo.fresh).1 in
  option_key_alist st' = <["quiet" := PStr "verbose"]> (option_key_alist Demo.fresh)
  ∧ "verbose" ∈ write_config_exclude_default st'.
Proof.
  intros st'.
  destruct (helpers_exclude_their_own_option
              (CAddQuiet (PStr "-q") (PStr "--quiet")
                 {| kw_dest := PStr "verbose"; kw_action := None |})
              "quiet" (PStr "-q") (PStr "--quiet")
              {| kw_dest := PStr "verbose"; kw_action := None |}
              Demo.fresh st' eq_refl eq_refl) as (Hk & Hx & _).
  split; [exact Hk|]. exact (Hx "verbose" eq_refl).
Defined.

Lemma load_merges_file_over_namespace_witness :
  let st := set_namespace {[ "a" := PInt 7; "c" := PInt 3 ]} Demo.fresh in
  load_configfile (PStr "conf.json") false "DEFAULT" "DEFAULT" st
  = (set_namespace (Demo.conf ∪ {[ "a" := PInt 7; "c" := PInt 3 ]}) st, Ok tt).
Proof.
  intros st.
  apply (load_merges_file_over_namespace st "conf.json" false "DEFAULT" "DEFAULT"
           Demo.conf); reflexivity.
Defined.

Lemma load_failure_changes_nothing_witness :
  let st := set_files (<["notes.txt" := @File ref_libs Plain (Ref.Json (PDict Demo.conf)) 420]> Demo.fs)
              Demo.fresh in
  load_configfile (PStr "notes.txt") false "DEFAULT" "DEFAULT" st
  = (st, Raise (ValueError "Unsupported config file format")).
Proof.
  intros st.
  apply (load_failure_changes_nothing st "notes.txt" false "DEFAULT" "DEFAULT");
    reflexivity.
Defined.


Lemma write_config_saves_the_skimmed_text_witness :
  let st := exec Demo.with_secret (CAppendExclude (PStr "secret")) in
  let st' := (write_config (PStr "out/conf.json.gz") (PList [PStr "save_config"])
                420 true 493 st).1 in
  ∃ content,
    skimmed_args_to_string (PList [PStr "save_config"]) ".json" st = (st, Ok content)
    ∧ files st' !! "out/conf.json.gz" = Some (File Gzip content 420)
    ∧ st' = set_files (files st') st.
Proof.
  intros st st'.
  apply (write_config_saves_the_skimmed_text st st' "out/conf.json.gz"
           (PList [PStr "save_config"]) 420 true 493); [discriminate|reflexivity].
Defined.


Lemma saved_config_loads_back_witness :
  let st := exec Demo.with_secret (CAppendExclude (PStr "secret")) in
  let st' := (write_config (PStr "out/conf.yaml.xz") (PList [PStr "save_config"])
                420 true 493 st).1 in
  files st' !! "out/conf.yaml.xz" = Some (File Lzma (Ref.Yaml (PDict Demo.conf)) 420)
  ∧ read_config (files st') "out/conf.yaml.xz" "DEFAULT" "DEFAULT"
    = Ok (PDict Demo.conf).
Proof.
  intros st st'. split; [reflexivity|].
  assert (Hd : filter (λ kv, excluded (PList ((PStr <$> write_config_exclude_default st)
                                                 ++ [PStr "save_config"])) kv.1 = false)
                 (namespace st) = Demo.conf) by reflexivity.
  assert (Hp : "out/conf.yaml.xz" ≠ "") by discriminate.
  assert (Hin : ".yaml" ∈ [".json"; ".yaml"; ".yml"]) by (right; left).
  pose proof (saved_config_loads_back st st' "out/conf.yaml.xz" ".yaml"
                [PStr "save_config"] 420 true 493 Hp eq_refl Hin) as H.
  cbv zeta in H. rewrite Hd in H.
  apply H; [| |reflexivity].
  - intros t Ht. destruct (ref_json_law Demo.conf (json_indent st) conf_flat)
      as (t0 & H0 & H1). rewrite H0 in Ht. by injection Ht as <-.
  - intros t Ht. destruct (ref_yaml_law Demo.conf (yaml_default_flow_style st) conf_flat)
      as (t0 & H0 & H1). rewrite H0 in Ht. by injection Ht as <-.
Defined.

Lemma skimmed_text_is_text_without_registered_witness :
  let st := exec Demo.with_secret (CAppendExclude (PStr "secret")) in
  skimmed_args_to_string (PList [PStr "save_config"]) "json" st
  = (st, Ok (Ref.Json (PDict Demo.conf)))
  ∧ (∃ msg, skimmed_args_to_string (PTuple [PStr "save_config"]) "json" st
            = (st, Raise (TypeError msg))).
Proof.
  intros st.
  destruct (skimmed_text_is_text_without_registered st "json") as [H1 H2].
  split.
  - rewrite (H1 [PStr "save_config"]). reflexivity.
  - apply (H2 (PTuple [PStr "save_config"]) I). discriminate.
Defined.

Lemma ini_text_needs_a_section_of_the_new_parser_witness :
  dict_to_string Demo.conf (PList [PStr "b"]) "ini" (PInt 4) (PBool false)
    "profile" PNone "DEFAULT" = Raise (KeyError "profile")
  ∧ dict_to_string Demo.conf (PList [PStr "a"; PStr "b"]) "ini" (PInt 4) (PBool false)
      "profile" PNone "DEFAULT" = Ok (Ref.Ini ∅).
Proof.
  split.
  - assert (Hset : ∀ k v, ({[ "a" := PInt 1 ]} : gmap string pyval) !! k = Some v →
                     cp_setitem cp_new "profile" k (py_str v) = Raise (KeyError "profile")).
    { intros k v Hkv. apply lookup_singleton_Some in Hkv as [<- <-]. reflexivity. }
    pose proof (ini_text_needs_a_section_of_the_new_parser Demo.conf {[ "a" := PInt 1 ]}
                  (PList [PStr "b"]) "ini" (PInt 4) (PBool false) PNone "profile"
                  "DEFAULT" eq_refl eq_refl Hset) as H.
    rewrite H. destruct (decide (({[ "a" := PInt 1 ]} : gmap string pyval) = ∅)) as [He|_];
      [|reflexivity].
    exfalso. revert He. apply map_non_empty_singleton.
  - assert (Hset : ∀ k v, (∅ : gmap string pyval) !! k = Some v →
                     cp_setitem cp_new "profile" k (py_str v) = Raise (KeyError "profile")).
    { intros k v Hkv. by rewrite lookup_empty in Hkv. }
    pose proof (ini_text_needs_a_section_of_the_new_parser Demo.conf ∅
                  (PList [PStr "a"; PStr "b"]) "ini" (PInt 4) (PBool false) PNone
                  "profile" "DEFAULT" eq_refl eq_refl Hset) as H.
    rewrite H. destruct (decide ((∅ : gmap string pyval) = ∅)) as [_|Hn]; [reflexivity|done].
Defined.

Lemma helper_with_a_taken_option_string_witness :
  let st := (init PNone PNone (PInt 4) (PBool false) true (blank Demo.fs)).1 in
  let r := add_argument_help (PStr "-h") (PStr "--help")
             {| kw_dest := PNone; kw_action := None |} st in
  raises r.2 ∧ r.1 = set_option_key "help" (PStr "help") st.
Proof.
  intros st r.
  apply (helper_with_a_taken_option_string
           (CAddHelp (PStr "-h") (PStr "--help") {| kw_dest := PNone; kw_action := None |})
           "help" (PStr "-h") (PStr "--help") {| kw_dest := PNone; kw_action := None |}
           st eq_refl).
  exists "-h", argparse_help. split; [by left|]. split; by left.
Defined.


Lemma ini_and_toml_files_load_nothing_witness :
  load_config (PStr "conf.ini") false Demo.with_secret = (Demo.with_secret, Ok tt)
  ∧ load_config (PStr "conf.toml") false Demo.with_secret = (Demo.with_secret, Ok tt).
Proof.
  split.
  - refine (proj1 (proj2 (ini_and_toml_files_load_nothing Demo.with_secret "conf.ini"
                            Demo.ini_text eq_refl eq_refl _)) false).
    right. split; [reflexivity|].
    eexists. split; [reflexivity|].
    intros H. vm_compute in H.
    repeat (apply elem_of_cons in H as [H|H]; [discriminate|]).
    by apply elem_of_nil in H.
  - refine (proj1 (proj2 (ini_and_toml_files_load_nothing Demo.with_secret "conf.toml"
                            Demo.toml_text eq_refl eq_refl _)) false).
    left. split; [reflexivity|]. eexists. reflexivity.
Defined.

End FurtherReference.
